(** * pc-ble-driver-js: the adapter factory and the characteristic counter

    A shallow embedding of [AdapterFactory] (the discovery engine that keeps
    the table of adapters present on the machine) and of the constructor of
    [Characteristic], with the properties of both that the specification
    states.

    Conventions of the embedding.
    - A JavaScript string is a [string]; its characters are the code units
      below 256, among which the line terminators are LF and CR.
    - [undefined] is [None] where a value may be missing.
    - An object used as a table is an association list in the order in which
      its properties were created ([JsObject]); the order of enumeration is
      computed from it by [own_keys].
    - Objects with identity ([Adapter]s, the factory instances) live in a
      store and are named by their index in it.
    - A method of the factory is a function from the state of the factory to
      the state after it and either the value returned or the error thrown
      ([Eff]); what has been written before a throw stays written.
    - [emit] appends to the list of the events the factory has emitted, and
      a call of a caller-supplied function appends to the list of calls:
      listeners and callbacks of the callers are observers, they neither
      throw nor call back into the factory while it runs. The factory is an
      event emitter of Node: when it emits [error] and has no listener for
      it, [emit] throws; the state counts the listeners of [error], which
      are none after the constructor. *)

From Stdlib Require Import Bool Arith NArith List Ascii String Lia.
From Stdlib Require Import DecimalString DecimalN DecimalFacts Permutation.
Import ListNotations.

Local Open Scope string_scope.
Local Open Scope list_scope.


(** ** JavaScript values used by the sources *)

Module Js.

(** Truthiness of a value that is a string or [undefined]. *)
Definition truthy (v : option string) : bool :=
  match v with
  | Some s => negb (String.eqb s "")
  | None => false
  end.

(** [ToString] on a string or [undefined]: what a property key and the
    argument of [RegExp.prototype.test] are coerced with. *)
Definition ToString (v : option string) : string :=
  match v with
  | Some s => s
  | None => "undefined"
  end.

Definition is_digit (c : ascii) : bool :=
  (48 <=? nat_of_ascii c)%nat && (nat_of_ascii c <=? 57)%nat.

Definition digit_value (c : ascii) : N := N.of_nat (nat_of_ascii c - 48).

(** [Number.prototype.toString] on a non-negative integer below 10^21:
    its decimal digits. *)
Definition toString (n : N) : string :=
  NilEmpty.string_of_uint (N.to_uint n).

(** The value of the longest prefix of decimal digits, [None] (NaN) when
    there is none: [parseInt(s, 10)] on a string that starts with neither
    white space nor a sign. *)
Fixpoint parse_digits (acc : option N) (s : string) : option N :=
  match s with
  | String c s' =>
      if is_digit c
      then parse_digits
             (Some (10 * match acc with Some a => a | None => 0 end
                    + digit_value c)%N) s'
      else acc
  | EmptyString => acc
  end.

Definition parseInt (s : string) : option N := parse_digits None s.

(** *** Objects as tables *)

Definition JsObject (V : Type) : Type := list (string * V).

Section Objects.
Context {V : Type}.

Definition keys (o : JsObject V) : list string := map fst o.

(** [o[k]] *)
Fixpoint obj_get (k : string) (o : JsObject V) : option V :=
  match o with
  | [] => None
  | (k', v) :: o' => if String.eqb k k' then Some v else obj_get k o'
  end.

(** [o[k] = v]: an existing property keeps its place. *)
Fixpoint obj_set (k : string) (v : V) (o : JsObject V) : JsObject V :=
  match o with
  | [] => [(k, v)]
  | (k', v') :: o' =>
      if String.eqb k k' then (k', v) :: o' else (k', v') :: obj_set k v o'
  end.

(** [delete o[k]] *)
Fixpoint obj_delete (k : string) (o : JsObject V) : JsObject V :=
  match o with
  | [] => []
  | (k', v) :: o' =>
      if String.eqb k k' then obj_delete k o' else (k', v) :: obj_delete k o'
  end.

(** A key is an array index when it is the canonical decimal form of an
    integer below 2^32 - 1. *)
Definition array_index (k : string) : option N :=
  match parseInt k with
  | Some n =>
      if String.eqb (toString n) k && (n <? 4294967295)%N
      then Some n else None
  | None => None
  end.

Fixpoint insert_index (x : N * string) (l : list (N * string))
  : list (N * string) :=
  match l with
  | [] => [x]
  | y :: l' =>
      if (fst x <=? fst y)%N then x :: l else y :: insert_index x l'
  end.

Definition sort_indices (l : list (N * string)) : list (N * string) :=
  fold_right insert_index [] l.

Fixpoint index_keys (ks : list string) : list (N * string) :=
  match ks with
  | [] => []
  | k :: ks' =>
      match array_index k with
      | Some n => (n, k) :: index_keys ks'
      | None => index_keys ks'
      end
  end.

Definition is_index (k : string) : bool :=
  match array_index k with Some _ => true | None => false end.

(** The order in which [for ... in] and [Object.assign] visit the
    properties: the array indices in ascending order, then the other
    keys in the order of their creation. *)
Definition own_keys (o : JsObject V) : list string :=
  map snd (sort_indices (index_keys (keys o)))
  ++ filter (fun k => negb (is_index k)) (keys o).

(** [Object.assign(target, source)] *)
Definition obj_assign (target source : JsObject V) : JsObject V :=
  fold_left
    (fun t k => match obj_get k source with
                | Some v => obj_set k v t
                | None => t
                end)
    (own_keys source) target.

End Objects.

End Js.
Import Js.

(** ** The pattern of a Segger serial number

  [/^.*68([0-3]{1})[0-9]{6}$/], matched the way a backtracking matcher
  does: [.*] takes as many characters as it can (any but a line
  terminator) and gives them back one at a time until the rest of the
  pattern matches up to the end of the input. *)

Module SeggerPattern.

Definition is_line_terminator (c : ascii) : bool :=
  Ascii.eqb c "010"%char || Ascii.eqb c "013"%char.

(** [[0-3]] *)
Definition is_digit_0_3 (c : ascii) : bool :=
  (48 <=? nat_of_ascii c)%nat && (nat_of_ascii c <=? 51)%nat.

(** [[0-9]{n}$] *)
Fixpoint digits_then_end (n : nat) (s : string) : bool :=
  match n, s with
  | O, EmptyString => true
  | S n', String c s' => is_digit c && digits_then_end n' s'
  | _, _ => false
  end.

(** [68([0-3]{1})[0-9]{6}$] at the current position; the result is the
    captured group. *)
Definition match_rest (s : string) : option string :=
  match s with
  | String "6" (String "8" (String d t)) =>
      if is_digit_0_3 d && digits_then_end 6 t
      then Some (String d EmptyString) else None
  | _ => None
  end.

(** [^.*] followed by the rest, longest [.*] first. *)
Fixpoint exec (s : string) : option string :=
  match s with
  | EmptyString => match_rest s
  | String c s' =>
      if is_line_terminator c then match_rest s
      else match exec s' with
           | Some g => Some g
           | None => match_rest s
           end
  end.

Definition test (s : string) : bool :=
  match exec s with Some _ => true | None => false end.

(** The pattern read as a description of the strings it accepts. *)
Definition no_line_terminator (p : string) : Prop :=
  forall c, In c (list_ascii_of_string p) -> is_line_terminator c = false.

Definition Matches (s : string) (d : ascii) : Prop :=
  exists p t,
    s = (p ++ String "6" (String "8" (String d t)))%string
    /\ no_line_terminator p
    /\ is_digit_0_3 d = true
    /\ digits_then_end 6 t = true.

End SeggerPattern.

(** ** The adapter factory *)

(** A native driver module: one of the two bindings the package loads, or a
    module handed to [getInstance] by the caller. *)
Inductive Driver : Type :=
| bindings (name : string)
| injected (n : nat).

(** The object [{ v2: ..., v3: ... }]. *)
Record BleDrivers : Type := { v2 : Driver; v3 : Driver }.

Definition _bleDriverV2 : Driver := bindings "pc-ble-driver-js-sd_api_v2".
Definition _bleDriverV3 : Driver := bindings "pc-ble-driver-js-sd_api_v3".
Definition _bleDrivers : BleDrivers := {| v2 := _bleDriverV2; v3 := _bleDriverV3 |}.

(** [bleDrivers[sdVersion]] *)
Definition driver_of (bleDrivers : BleDrivers) (sdVersion : string)
  : option Driver :=
  if String.eqb sdVersion "v2" then Some (v2 bleDrivers)
  else if String.eqb sdVersion "v3" then Some (v3 bleDrivers)
  else None.

(** What the enumeration of the driver reports for one device. *)
Record RawDescriptor : Type := {
  serialNumber : option string;
  comName : option string;
  manufacturer : option string
}.

Inductive AdapterEvent : Type := opened | closed.

(** The two arrow functions of [_setUpListenersForAdapterOpenAndClose]. *)
Inductive Listener : Type :=
| reemit_adapterOpened
| reemit_adapterClosed.

(** Modelled from the spec: the class [Adapter] of [./adapter], which is not
    among the sources. A handle carries what its constructor is given
    (driver, native adapter, instance id, port name, serial number, advisory
    message) and, being an event emitter, the listeners subscribed to its
    [opened] and [closed] notifications, oldest first. *)
Record Adapter : Type := {
  adapter_driver : Driver;
  adapter_addOn : nat;
  adapter_instanceId : option string;
  adapter_comName : option string;
  adapter_serialNumber : option string;
  adapter_notSupportedMessage : option string;
  on_opened : list Listener;
  on_closed : list Listener
}.

Definition listeners (ev : AdapterEvent) (a : Adapter) : list Listener :=
  match ev with opened => on_opened a | closed => on_closed a end.

Definition set_listeners (ev : AdapterEvent) (ls : list Listener) (a : Adapter)
  : Adapter :=
  match ev with
  | opened =>
      {| adapter_driver := adapter_driver a; adapter_addOn := adapter_addOn a;
         adapter_instanceId := adapter_instanceId a;
         adapter_comName := adapter_comName a;
         adapter_serialNumber := adapter_serialNumber a;
         adapter_notSupportedMessage := adapter_notSupportedMessage a;
         on_opened := ls; on_closed := on_closed a |}
  | closed =>
      {| adapter_driver := adapter_driver a; adapter_addOn := adapter_addOn a;
         adapter_instanceId := adapter_instanceId a;
         adapter_comName := adapter_comName a;
         adapter_serialNumber := adapter_serialNumber a;
         adapter_notSupportedMessage := adapter_notSupportedMessage a;
         on_opened := on_opened a; on_closed := ls |}
  end.

(** What the factory emits with [error]: the text of [_getInstanceId], a
    string, or the error of the driver, an error object named by its
    message. *)
Inductive ErrorValue : Type :=
| a_text (text : string)
| an_error (message : string).

(** The events of the factory, with their payload; an adapter is named by
    its reference. *)
Inductive Event : Type :=
| ev_error (err : ErrorValue)
| ev_added (adapter : nat)
| ev_removed (adapter : nat)
| ev_adapterOpened (adapter : nat)
| ev_adapterClosed (adapter : nat).

(** The arguments [(error, adapters)] of a completion callback: an error
    alone, or [undefined] and the table [this._adapters] itself. *)
Inductive Args : Type :=
| with_error (err : string)
| with_adapters.

(** What may be passed as [callback]. Anything that is not a function
    (nothing at all, as the timer does, or another value) is treated alike
    by every test of the sources. *)
Inductive Callback : Type :=
| not_a_function
| function (f : nat)
| getAdapters_arrow (callback : Callback).

Definition is_function (callback : Callback) : bool :=
  match callback with not_a_function => false | _ => true end.

(** The state of a factory and of what it reaches. *)
Record State : Type := {
  platform : string;              (* os.platform() *)
  this_bleDrivers : BleDrivers;   (* this._bleDrivers *)
  this_adapters : JsObject nat;   (* this._adapters *)
  updateInterval : nat;           (* period of the timer, in ms *)
  store : list Adapter;           (* the Adapter objects constructed *)
  addOns : list Driver;           (* the native adapters constructed *)
  emitted : list Event;           (* events emitted, oldest first *)
  called : list (nat * Args);     (* calls of the callers' functions *)
  error_listeners : nat           (* listeners of the factory's 'error' *)
}.

Definition with_adapters_table (t : JsObject nat) (s : State) : State :=
  {| platform := platform s; this_bleDrivers := this_bleDrivers s;
     this_adapters := t; updateInterval := updateInterval s;
     store := store s; addOns := addOns s;
     emitted := emitted s; called := called s;
     error_listeners := error_listeners s |}.

Definition with_store (h : list Adapter) (s : State) : State :=
  {| platform := platform s; this_bleDrivers := this_bleDrivers s;
     this_adapters := this_adapters s; updateInterval := updateInterval s;
     store := h; addOns := addOns s;
     emitted := emitted s; called := called s;
     error_listeners := error_listeners s |}.

Definition with_addOns (l : list Driver) (s : State) : State :=
  {| platform := platform s; this_bleDrivers := this_bleDrivers s;
     this_adapters := this_adapters s; updateInterval := updateInterval s;
     store := store s; addOns := l;
     emitted := emitted s; called := called s;
     error_listeners := error_listeners s |}.

Definition with_emitted (l : list Event) (s : State) : State :=
  {| platform := platform s; this_bleDrivers := this_bleDrivers s;
     this_adapters := this_adapters s; updateInterval := updateInterval s;
     store := store s; addOns := addOns s;
     emitted := l; called := called s;
     error_listeners := error_listeners s |}.

Definition with_error_listeners (n : nat) (s : State) : State :=
  {| platform := platform s; this_bleDrivers := this_bleDrivers s;
     this_adapters := this_adapters s; updateInterval := updateInterval s;
     store := store s; addOns := addOns s;
     emitted := emitted s; called := called s;
     error_listeners := n |}.

Definition with_called (l : list (nat * Args)) (s : State) : State :=
  {| platform := platform s; this_bleDrivers := this_bleDrivers s;
     this_adapters := this_adapters s; updateInterval := updateInterval s;
     store := store s; addOns := addOns s;
     emitted := emitted s; called := l;
     error_listeners := error_listeners s |}.

(** *** Effects *)

Inductive Outcome (A : Type) : Type :=
| Return (a : A)
| Throw (message : string).
Arguments Return {A} a.
Arguments Throw {A} message.

Definition Eff (A : Type) : Type := State -> State * Outcome A.

Definition ret {A} (a : A) : Eff A := fun s => (s, Return a).

Definition throw {A} (message : string) : Eff A := fun s => (s, Throw message).

Definition bind {A B} (c : Eff A) (k : A -> Eff B) : Eff B :=
  fun s =>
    match c s with
    | (s', Return a) => k a s'
    | (s', Throw m) => (s', Throw m)
    end.

Notation "x <- c ;; k" := (bind c (fun x => k))
  (at level 61, c at next level, right associativity).
Notation "c ;;; k" := (bind c (fun _ => k))
  (at level 61, right associativity).

(** [for (x of l) body], with the local variables of the loop passed on. *)
Fixpoint for_of {A L} (body : L -> A -> Eff L) (l : list A) (locals : L)
  : Eff L :=
  match l with
  | [] => ret locals
  | x :: l' => locals' <- body locals x ;; for_of body l' locals'
  end.

Definition for_each {A} (body : A -> Eff unit) (l : list A) : Eff unit :=
  for_of (fun _ x => body x) l tt.

(** The message of what [emit] throws when nobody listens to [error]: the
    error itself when the payload is an error object, and otherwise an
    error that quotes the payload. *)
Definition unhandled (err : ErrorValue) : string :=
  match err with
  | an_error message => message
  | a_text text => ("Unhandled error. ('" ++ text ++ "')")%string
  end.

(** The factory has a listener of [error]. *)
Definition heard (s : State) : bool := negb (Nat.eqb (error_listeners s) 0).

(** [this.emit(...)]: the event is recorded; an [error] event that the
    factory has no listener for is thrown. *)
Definition emit (e : Event) : Eff unit :=
  fun s =>
    (with_emitted (emitted s ++ [e]) s,
     match e with
     | ev_error err => if heard s then Return tt else Throw (unhandled err)
     | _ => Return tt
     end).

(** [this._adapters[key]] *)
Definition get_adapter (key : string) : Eff (option nat) :=
  fun s => (s, Return (obj_get key (this_adapters s))).

(** [this._adapters[key] = adapter] *)
Definition put_adapter (key : string) (adapter : nat) : Eff unit :=
  fun s => (with_adapters_table (obj_set key adapter (this_adapters s)) s,
            Return tt).

(** [delete this._adapters[key]] *)
Definition delete_adapter (key : string) : Eff unit :=
  fun s => (with_adapters_table (obj_delete key (this_adapters s)) s, Return tt).

(** Replaces the object at reference [r]; nothing at a reference that names
    no object. *)
Fixpoint store_update (r : nat) (f : Adapter -> Adapter) (h : list Adapter)
  : list Adapter :=
  match h, r with
  | [], _ => []
  | a :: h', O => f a :: h'
  | a :: h', S r' => a :: store_update r' f h'
  end.

(** [adapter.on(ev, l)] *)
Definition on (adapter : nat) (ev : AdapterEvent) (l : Listener) : Eff unit :=
  fun s =>
    (with_store
       (store_update adapter
          (fun a => set_listeners ev (listeners ev a ++ [l]) a) (store s)) s,
     Return tt).

(** [adapter.removeAllListeners(ev)] *)
Definition removeAllListeners (adapter : nat) (ev : AdapterEvent) : Eff unit :=
  fun s =>
    (with_store (store_update adapter (set_listeners ev []) (store s)) s,
     Return tt).

(** [new selectedDriver.Adapter()]: the native adapters are numbered in the
    order of their construction. *)
Definition new_addOn (selectedDriver : Driver) : Eff nat :=
  fun s => (with_addOns (addOns s ++ [selectedDriver]) s,
            Return (List.length (addOns s))).

(** [new Adapter(...)]: the new object has no listener; its reference is the
    next free place of the store. *)
Definition new_Adapter (selectedDriver : Driver) (addOnAdapter : nat)
    (instanceId comName serialNumber notSupportedMessage : option string)
  : Eff nat :=
  fun s =>
    (with_store
       (store s ++
        [{| adapter_driver := selectedDriver; adapter_addOn := addOnAdapter;
            adapter_instanceId := instanceId; adapter_comName := comName;
            adapter_serialNumber := serialNumber;
            adapter_notSupportedMessage := notSupportedMessage;
            on_opened := []; on_closed := [] |}]) s,
     Return (List.length (store s))).

(** Calls [callback] with [args]: a call of a function of the caller is
    recorded; the arrow function of [getAdapters] runs its body. *)
Fixpoint invoke (callback : Callback) (args : Args) : Eff unit :=
  match callback with
  | not_a_function => throw "TypeError: callback is not a function"
  | function f => fun s => (with_called (called s ++ [(f, args)]) s, Return tt)
  | getAdapters_arrow callback' =>
      match args with
      | with_error error => invoke callback' (with_error error)
      | with_adapters =>
          if is_function callback' then invoke callback' with_adapters
          else ret tt
      end
  end.

(** *** The methods of [AdapterFactory] *)

Definition MissingInstanceId : string := "Failed to get adapter instanceId".
Definition UnsupportedHardware : string := "Unsupported nRF5 development kit.".
Definition UnknownAdapterVendor : string :=
  "Not able to determine version of pc-ble-driver to use.".
Definition DuplicateConstruction : string := "Cannot instantiate directly.".

Definition _getInstanceId (adapter : RawDescriptor) : Eff (option string) :=
  if truthy (serialNumber adapter) then ret (serialNumber adapter)
  else if truthy (comName adapter) then ret (comName adapter)
  else emit (ev_error (a_text MissingInstanceId)) ;;; ret None.

(** The [switch] on the development kit number. *)
Definition sdVersion_of (developmentKit : option N) : Outcome string :=
  match developmentKit with
  | Some 0%N | Some 1%N => Return "v2"
  | Some 2%N => Return "v3"
  | Some 3%N => Return "v3"
  | _ => Throw UnsupportedHardware
  end.

(** The driver generation of an instance id: lines 117 to 142 of the method
    below without the construction of the native adapter. *)
Definition classify (instanceId : option string) : Outcome string :=
  if SeggerPattern.test (ToString instanceId) then
    match SeggerPattern.exec (ToString instanceId) with
    | Some group1 => sdVersion_of (parseInt group1)
    | None => Throw "TypeError: Cannot read properties of null (reading '1')"
    end
  else Throw UnknownAdapterVendor.

Definition lift {A} (o : Outcome A) : Eff A := fun s => (s, o).

Definition selected_driver (sdVersion : string) : Eff Driver :=
  fun s =>
    match driver_of (this_bleDrivers s) sdVersion with
    | Some d => (s, Return d)
    | None =>
        (s, Throw "TypeError: Cannot read properties of undefined (reading 'Adapter')")
    end.

Definition is_string (v : option string) (s : string) : bool :=
  match v with Some s' => String.eqb s' s | None => false end.

Definition mbed_message : string :=
  "This adapter with mbed CMSIS firmware is currently not supported on OS X. Please visit www.nordicsemi.com/nRFConnectOSXfix for further instructions.".

Definition segger_message : string :=
  "Note: Adapters with Segger JLink debug probe requires MSD to be disabled to function properly on OSX. Please visit www.nordicsemi.com/nRFConnectOSXfix for further instructions.".

Definition notSupportedMessage_of (os_platform : string)
    (adapter : RawDescriptor) : option string :=
  if String.eqb os_platform "darwin" && is_string (manufacturer adapter) "MBED"
  then Some mbed_message
  else if String.eqb os_platform "darwin"
          && is_string (manufacturer adapter) "SEGGER"
  then Some segger_message
  else None.

(** After the classification [addOnAdapter] has been assigned, so the test
    [addOnAdapter === undefined] of the source never holds. *)
Definition _parseAndCreateAdapter (adapter : RawDescriptor) : Eff nat :=
  instanceId <- _getInstanceId adapter ;;
  sdVersion <- lift (classify instanceId) ;;
  selectedDriver <- selected_driver sdVersion ;;
  addOnAdapter <- new_addOn selectedDriver ;;
  fun s =>
    new_Adapter selectedDriver addOnAdapter instanceId (comName adapter)
      (serialNumber adapter) (notSupportedMessage_of (platform s) adapter) s.

Definition _setUpListenersForAdapterOpenAndClose (adapter : nat) : Eff unit :=
  on adapter opened reemit_adapterOpened ;;;
  on adapter closed reemit_adapterClosed.

(** The body of the first loop of [_updateAdapterList]; [removedAdapters] is
    the local table of the candidates for removal.

    [this._adapters] inherits from [Object.prototype], so a look-up of an
    inherited name ([constructor], [toString], ...) gives a value where
    [obj_get] gives none. No such name matches the serial number pattern:
    for these ids the source deletes a property that [removedAdapters] does
    not have and then throws from [_parseAndCreateAdapter], which is what
    this body does. *)
Definition add_step (removedAdapters : JsObject nat) (adapter : RawDescriptor)
  : Eff (JsObject nat) :=
  adapterInstanceId <- _getInstanceId adapter ;;
  let key := ToString adapterInstanceId in
  present <- get_adapter key ;;
  let removedAdapters :=
    match present with
    | Some _ => obj_delete key removedAdapters
    | None => removedAdapters
    end in
  newAdapter <- _parseAndCreateAdapter adapter ;;
  present <- get_adapter key ;;
  match present with
  | None =>
      put_adapter key newAdapter ;;;
      _setUpListenersForAdapterOpenAndClose newAdapter ;;;
      emit (ev_added newAdapter) ;;;
      ret removedAdapters
  | Some _ => ret removedAdapters
  end.

(** The body of the second loop. *)
Definition remove_step (adapterId : string) : Eff unit :=
  removedAdapter <- get_adapter adapterId ;;
  match removedAdapter with
  | Some r =>
      removeAllListeners r opened ;;;
      delete_adapter adapterId ;;;
      emit (ev_removed r)
  | None =>
      throw "TypeError: Cannot read properties of undefined (reading 'removeAllListeners')"
  end.

(** What the enumeration of the driver passes to its callback: an error
    ([err] is the message of the error object, a truthy value), or no error
    and the descriptors of the devices. *)
Inductive Enumeration : Type :=
| enum_error (err : string)
| enum_adapters (adapters : list RawDescriptor).

(** The callback that [_updateAdapterList] hands to [getAdapters] of the v2
    driver, run on what the driver reports. *)
Definition _updateAdapterList (callback : Callback) (result : Enumeration)
  : Eff unit :=
  match result with
  | enum_error err =>
      emit (ev_error (an_error err)) ;;;
      (if is_function callback then invoke callback (with_error err)
       else ret tt)
  | enum_adapters adapters =>
      fun s =>
        (removedAdapters <-
           for_of add_step adapters (obj_assign [] (this_adapters s)) ;;
         for_each remove_step (own_keys removedAdapters) ;;;
         (if is_function callback then invoke callback with_adapters
          else ret tt)) s
  end.

Definition getAdapters (callback : Callback) (result : Enumeration) : Eff unit :=
  _updateAdapterList (getAdapters_arrow callback) result.

(** A tick of the timer set up by the constructor. *)
Definition UPDATE_INTERVAL : nat := 2000.

Definition tick (result : Enumeration) : Eff unit :=
  _updateAdapterList not_a_function result.

(** An adapter emits [ev] with [payload]: its listeners run, oldest first. *)
Definition run_listener (payload : nat) (l : Listener) : Eff unit :=
  match l with
  | reemit_adapterOpened => emit (ev_adapterOpened payload)
  | reemit_adapterClosed => emit (ev_adapterClosed payload)
  end.

Definition adapter_emit (adapter : nat) (ev : AdapterEvent) (payload : nat)
  : Eff unit :=
  fun s =>
    match nth_error (store s) adapter with
    | Some a => for_each (run_listener payload) (listeners ev a) s
    | None => (s, Return tt)
    end.

(** The state that the constructor sets up. *)
Definition new_factory (os_platform : string) (bleDrivers : BleDrivers)
  : State :=
  {| platform := os_platform; this_bleDrivers := bleDrivers;
     this_adapters := []; updateInterval := UPDATE_INTERVAL;
     store := []; addOns := []; emitted := []; called := [];
     error_listeners := 0 |}.

(** [factory.on('error', listener)] and
    [factory.removeAllListeners('error')], of the event emitter that the
    factory extends. *)
Definition on_error : Eff unit :=
  fun s => (with_error_listeners (S (error_listeners s)) s, Return tt).

Definition off_error : Eff unit :=
  fun s => (with_error_listeners 0 s, Return tt).

(** What happens to a factory: enumerations answered, on the timer or on
    demand, notifications of the adapters it has constructed, and users
    that start or stop listening to its errors. *)
Inductive Op : Type :=
| op_update (callback : Callback) (result : Enumeration)
| op_adapter_emit (adapter : nat) (ev : AdapterEvent) (payload : nat)
| op_on_error
| op_off_error.

Definition step (s : State) (op : Op) : State :=
  match op with
  | op_update callback result => fst (_updateAdapterList callback result s)
  | op_adapter_emit adapter ev payload => fst (adapter_emit adapter ev payload s)
  | op_on_error => fst (on_error s)
  | op_off_error => fst (off_error s)
  end.

Definition run (ops : list Op) (s : State) : State := fold_left step ops s.

(** Scenarios *)

Definition dk (serial : string) : RawDescriptor :=
  {| serialNumber := Some serial; comName := None; manufacturer := None |}.

Definition nameless : RawDescriptor :=
  {| serialNumber := None; comName := None; manufacturer := None |}.

Definition linux : State := new_factory "linux" _bleDrivers.

(** ** Notions used by the statements about the factory *)

(** The value that [_getInstanceId] returns. *)
Definition instanceId_of (adapter : RawDescriptor) : option string :=
  if truthy (serialNumber adapter) then serialNumber adapter
  else if truthy (comName adapter) then comName adapter
  else None.

(** The property key under which a descriptor is filed. *)
Definition key_of (adapter : RawDescriptor) : string :=
  ToString (instanceId_of adapter).

(** The events that [_getInstanceId] emits. *)
Definition id_errors (adapter : RawDescriptor) : list Event :=
  match instanceId_of adapter with
  | Some _ => []
  | None => [ev_error (a_text MissingInstanceId)]
  end.

(** What [_getInstanceId] returns or throws. *)
Definition id_outcome (s : State) (adapter : RawDescriptor)
  : Outcome (option string) :=
  match instanceId_of adapter with
  | Some id => Return (Some id)
  | None =>
      if heard s then Return None
      else Throw (unhandled (a_text MissingInstanceId))
  end.

(** The events of a turn of the first loop on a descriptor that is not
    classified: a missing id is reported by the loop and, when that
    returns, once more by the classification. *)
Definition reported (s : State) (adapter : RawDescriptor) : list Event :=
  if heard s then id_errors adapter ++ id_errors adapter else id_errors adapter.

(** The message of what such a turn throws: the error [message] of the
    classification, unless [emit] has thrown before for a missing id that
    nobody listens to. *)
Definition thrown (s : State) (adapter : RawDescriptor) (message : string)
  : string :=
  match instanceId_of adapter with
  | Some _ => message
  | None =>
      if heard s then message else unhandled (a_text MissingInstanceId)
  end.

(** The adapter object that [_parseAndCreateAdapter] constructs. *)
Definition fresh_adapter (adapter : RawDescriptor) (drv : Driver) (s : State)
  : Adapter :=
  {| adapter_driver := drv; adapter_addOn := List.length (addOns s);
     adapter_instanceId := instanceId_of adapter;
     adapter_comName := comName adapter;
     adapter_serialNumber := serialNumber adapter;
     adapter_notSupportedMessage := notSupportedMessage_of (platform s) adapter;
     on_opened := []; on_closed := [] |}.

(** The state after a successful [_parseAndCreateAdapter]. *)
Definition after_parse (adapter : RawDescriptor) (drv : Driver) (s : State)
  : State :=
  with_store (store s ++ [fresh_adapter adapter drv s])
    (with_addOns (addOns s ++ [drv]) s).

(** [adapter] is given a handle bound to the driver [drv]. *)
Definition bound_to (adapter : RawDescriptor) (s : State) (drv : Driver) : Prop :=
  exists s' r a,
    _parseAndCreateAdapter adapter s = (s', Return r)
    /\ nth_error (store s') r = Some a
    /\ adapter_driver a = drv.

(** The new adapter once the two listeners of the factory are attached. *)
Definition listening (a : Adapter) : Adapter :=
  set_listeners closed (listeners closed a ++ [reemit_adapterClosed])
    (set_listeners opened (listeners opened a ++ [reemit_adapterOpened]) a).

(** The state after a turn of the first loop that adds the descriptor. *)
Definition after_add (adapter : RawDescriptor) (drv : Driver) (s : State)
  : State :=
  {| platform := platform s; this_bleDrivers := this_bleDrivers s;
     this_adapters :=
       obj_set (key_of adapter) (List.length (store s)) (this_adapters s);
     updateInterval := updateInterval s;
     store := store s ++ [listening (fresh_adapter adapter drv s)];
     addOns := addOns s ++ [drv];
     emitted := emitted s ++ [ev_added (List.length (store s))];
     called := called s;
     error_listeners := error_listeners s |}.

(** The state after a turn of the second loop that removes [adapterId],
    filed with the reference [r]. *)
Definition after_remove (adapterId : string) (r : nat) (s : State) : State :=
  {| platform := platform s; this_bleDrivers := this_bleDrivers s;
     this_adapters := obj_delete adapterId (this_adapters s);
     updateInterval := updateInterval s;
     store := store_update r (set_listeners opened []) (store s);
     addOns := addOns s;
     emitted := emitted s ++ [ev_removed r];
     called := called s;
     error_listeners := error_listeners s |}.

Definition classified (adapter : RawDescriptor) : Prop :=
  exists sdVersion, classify (instanceId_of adapter) = Return sdVersion.

Definition unclassified (adapter : RawDescriptor) (message : string) : Prop :=
  classify (instanceId_of adapter) = Throw message.

(** The [added] events among [evs] name adapters of the store [h] whose
    instance id was not filed in the table [t]. *)
Definition added_are_new (t : JsObject nat) (h : list Adapter)
    (evs : list Event) : Prop :=
  forall r, In (ev_added r) evs ->
    exists k, nth_error (map adapter_instanceId h) r = Some (Some k)
              /\ obj_get k t = None.

(** What holds of the state [s] during the first loop of a pass that started
    in [s0]: the entries of the table are kept, nothing is called, nothing
    is removed, and what is added is new. *)
Definition AddFrame (s0 s : State) : Prop :=
  (forall k r, obj_get k (this_adapters s0) = Some r ->
               obj_get k (this_adapters s) = Some r)
  /\ called s = called s0
  /\ exists evs,
       emitted s = emitted s0 ++ evs
       /\ (forall r, ~ In (ev_removed r) evs)
       /\ added_are_new (this_adapters s0) (store s) evs.


(** The table is a table (no key twice) and every adapter in it is filed
    under its own instance id. *)
Definition Filed (s : State) : Prop :=
  NoDup (keys (this_adapters s))
  /\ forall k r, obj_get k (this_adapters s) = Some r ->
                 nth_error (map adapter_instanceId (store s)) r = Some (Some k).

(** ** Notions used by the further statements about the factory *)

(** What an adapter is given at its construction, its listeners apart. *)
Definition identity (a : Adapter)
  : Driver * nat * option string * option string * option string
    * option string :=
  (adapter_driver a, adapter_addOn a, adapter_instanceId a,
   adapter_comName a, adapter_serialNumber a, adapter_notSupportedMessage a).

(** Every adapter in the table is filed under its instance id, which the
    pattern classifies, is bound to the driver of that classification, and
    has the two listeners of the factory and no other. *)
Definition Registered (s : State) : Prop :=
  forall k r, obj_get k (this_adapters s) = Some r ->
    exists a sdVersion,
      nth_error (store s) r = Some a
      /\ adapter_instanceId a = Some k
      /\ classify (Some k) = Return sdVersion
      /\ driver_of (this_bleDrivers s) sdVersion = Some (adapter_driver a)
      /\ on_opened a = [reemit_adapterOpened]
      /\ on_closed a = [reemit_adapterClosed].

(** The adapters of [s0] are in [s] what they were, listeners apart. *)
Definition identities_kept (s0 s : State) : Prop :=
  forall r a, nth_error (store s0) r = Some a ->
    exists a', nth_error (store s) r = Some a' /\ identity a' = identity a.

(** No adapter of the store has an advisory message. *)
Definition no_advisory (s : State) : Prop :=
  Forall (fun a => adapter_notSupportedMessage a = None) (store s).

(** The references that the first loop files, in the order of the
    descriptors: the table is [t] and the next free place of the store is
    [n] when the loop comes to [adapters]. *)
Fixpoint added_refs (t : JsObject nat) (n : nat) (adapters : list RawDescriptor)
  : list nat :=
  match adapters with
  | [] => []
  | x :: xs =>
      match obj_get (key_of x) t with
      | Some _ => added_refs t (S n) xs
      | None => n :: added_refs (obj_set (key_of x) n t) (S n) xs
      end
  end.

(** The table that the first loop leaves. *)
Fixpoint table_after_add (t : JsObject nat) (n : nat)
    (adapters : list RawDescriptor) : JsObject nat :=
  match adapters with
  | [] => t
  | x :: xs =>
      match obj_get (key_of x) t with
      | Some _ => table_after_add t (S n) xs
      | None => table_after_add (obj_set (key_of x) n t) (S n) xs
      end
  end.

(** The keys of [ks] that are not among [known], each once, in the order of
    their first occurrence. *)
Fixpoint new_keys (known ks : list string) : list string :=
  match ks with
  | [] => []
  | k :: ks' =>
      if existsb (String.eqb k) known then new_keys known ks'
      else k :: new_keys (k :: known) ks'
  end.

(** The adapters that the table [t] holds for the keys [ks], in their order:
    what the second loop removes. *)
Definition removed_refs (t : JsObject nat) (ks : list string) : list nat :=
  flat_map (fun k => match obj_get k t with Some r => [r] | None => [] end) ks.

(** The function of the caller that a call of [callback] ends with, if
    there is one. *)
Fixpoint callee (callback : Callback) : option nat :=
  match callback with
  | not_a_function => None
  | function f => Some f
  | getAdapters_arrow callback' => callee callback'
  end.

Definition call_of (callback : Callback) (args : Args) : list (nat * Args) :=
  match callee callback with
  | Some f => [(f, args)]
  | None => []
  end.

(** ** The singleton *)

(** What a caller may pass as [singletonToken]. *)
Inductive Value : Type :=
| undefined
| a_string (s : string)
| a_symbol (id : nat)
| an_object (r : nat).

(** [===] *)
Definition strict_equal (x y : Value) : bool :=
  match x, y with
  | undefined, undefined => true
  | a_string s, a_string s' => String.eqb s s'
  | a_symbol i, a_symbol i' => Nat.eqb i i'
  | an_object r, an_object r' => Nat.eqb r r'
  | _, _ => false
  end.

(** [let _singleton = Symbol()]: the first symbol that the module makes; the
    variable is not exported. *)
Definition _singleton : Value := a_symbol 0.

(** The process: the platform, the property [AdapterFactory[_singleton]] and
    the factories constructed, named by their place. *)
Record Process : Type := {
  os : string;
  instance : option nat;
  factories : list State
}.

Definition start (os_platform : string) : Process :=
  {| os := os_platform; instance := None; factories := [] |}.

(** [new AdapterFactory(singletonToken, bleDrivers)] *)
Definition constructor (singletonToken : Value) (bleDrivers : BleDrivers)
    (p : Process) : Process * Outcome nat :=
  if negb (strict_equal _singleton singletonToken)
  then (p, Throw DuplicateConstruction)
  else ({| os := os p; instance := instance p;
           factories := factories p ++ [new_factory (os p) bleDrivers] |},
        Return (List.length (factories p))).

(** [AdapterFactory.getInstance(bleDrivers)], called on the class: [this] is
    [AdapterFactory], and a factory, being an object, is truthy. *)
Definition getInstance (bleDrivers : option BleDrivers) (p : Process)
  : Process * Outcome nat :=
  let bleDrivers :=
    match bleDrivers with Some b => b | None => _bleDrivers end in
  match instance p with
  | Some r => (p, Return r)
  | None =>
      match constructor _singleton bleDrivers p with
      | (p', Return r) =>
          ({| os := os p'; instance := Some r; factories := factories p' |},
           Return r)
      | (p', Throw m) => (p', Throw m)
      end
  end.

(** What the code outside the module can do about the factory. *)
Inductive Call : Type :=
| call_getInstance (bleDrivers : option BleDrivers)
| call_new (singletonToken : Value) (bleDrivers : BleDrivers).

Definition call (c : Call) (p : Process) : Process * Outcome nat :=
  match c with
  | call_getInstance bleDrivers => getInstance bleDrivers p
  | call_new singletonToken bleDrivers => constructor singletonToken bleDrivers p
  end.

(** The calls in turn, with what each returns or throws. *)
Fixpoint calls (cs : list Call) (p : Process) : Process * list (Outcome nat) :=
  match cs with
  | [] => (p, [])
  | c :: cs' =>
      let (p1, o) := call c p in
      let (p2, os) := calls cs' p1 in
      (p2, o :: os)
  end.

(** Outside the module nobody holds the token. *)
Definition outside (c : Call) : Prop :=
  match c with
  | call_getInstance _ => True
  | call_new singletonToken _ => singletonToken <> _singleton
  end.

(** What the call must have given: the one instance, or the error. *)
Definition expected (c : Call) : Outcome nat :=
  match c with
  | call_getInstance _ => Return 0
  | call_new _ _ => Throw DuplicateConstruction
  end.

(** The process before and after the first [getInstance]. *)
Definition settled (p : Process) : Prop :=
  (instance p = None /\ factories p = [])
  \/ (instance p = Some 0 /\ List.length (factories p) = 1).

(** The drivers of the first [getInstance] among the calls [cs]. *)
Fixpoint first_drivers (cs : list Call) : option BleDrivers :=
  match cs with
  | [] => None
  | call_getInstance (Some b) :: _ => Some b
  | call_getInstance None :: _ => Some _bleDrivers
  | call_new _ _ :: cs' => first_drivers cs'
  end.

(** ** Characteristics *)

Module Characteristic.

(** The counter [i] is a JavaScript number. On the integers from 0 to 2^53,
    which are all numbers, [i++] adds one, except at 2^53: the sum 2^53 + 1
    is no number and rounds to the even neighbour, 2^53 itself. The counter
    starts at 1 and so stays among these integers. *)
Definition limit : N := 9007199254740992.

Definition increment (i : N) : N := if (i <? limit)%N then (i + 1)%N else i.

Section Constructor.
Context {Properties Value : Type}.

Record Characteristic : Type := {
  _instanceId : string;
  _serviceInstanceId : string;
  uuid : string;
  _name : option string;
  properties : Properties;
  value : Value
}.

(** [new Characteristic(serviceInstanceId, uuid, properties, value)] with
    the counter at [i]: the counter after it, and the object. *)
Definition new (serviceInstanceId uuid : string) (properties : Properties)
    (value : Value) (i : N) : N * Characteristic :=
  (increment i,
   {| _instanceId := (serviceInstanceId ++ "." ++ toString i)%string;
      _serviceInstanceId := serviceInstanceId;
      uuid := uuid;
      _name := None;
      properties := properties;
      value := value |}).

Definition instanceId (c : Characteristic) : string := _instanceId c.

Definition serviceInstanceId (c : Characteristic) : string :=
  _serviceInstanceId c.

Definition name (c : Characteristic) : string :=
  if truthy (_name c) then ToString (_name c) else uuid c.

(** The counter after [n] constructions in a process. *)
Definition counter_after (n : N) : N := N.iter n increment 1%N.

(** The characteristic that the construction number [n] of a process makes,
    counting from 0. *)
Definition constructed (n : N) (serviceInstanceId uuid : string)
    (properties : Properties) (value : Value) : Characteristic :=
  snd (new serviceInstanceId uuid properties value (counter_after n)).

(** [c.name = name]: the setter. *)
Definition set_name (name : option string) (c : Characteristic)
  : Characteristic :=
  {| _instanceId := _instanceId c;
     _serviceInstanceId := _serviceInstanceId c;
     uuid := uuid c;
     _name := name;
     properties := properties c;
     value := value c |}.

End Constructor.

Definition dot : ascii := "."%char.

Fixpoint has_dot (s : string) : bool :=
  match s with
  | EmptyString => false
  | String c s' => Ascii.eqb c dot || has_dot s'
  end.

End Characteristic.

(** * Properties *)

(** ** The pattern *)

Module SeggerPatternFacts.
Import SeggerPattern.

Lemma length_app_string (p q : string) :
  String.length (p ++ q)%string = String.length p + String.length q.
Proof. induction p as [|c p IH]; simpl; [reflexivity | now f_equal]. Qed.

Lemma digits_then_end_length n s :
  digits_then_end n s = true -> String.length s = n.
Proof.
  revert s; induction n as [|n IH]; intros [|c s]; simpl; try discriminate.
  - reflexivity.
  - intros H. apply andb_prop in H. destruct H as [_ H].
    now rewrite (IH _ H).
Qed.

Lemma match_rest_inv s g :
  match_rest s = Some g ->
  exists d t,
    s = String "6" (String "8" (String d t))
    /\ is_digit_0_3 d = true /\ digits_then_end 6 t = true
    /\ g = String d EmptyString.
Proof.
  unfold match_rest. intros H.
  destruct s as [|c1 [|c2 [|d t]]].
  - discriminate H.
  - destruct c1 as [[] [] [] [] [] [] [] []]; discriminate H.
  - destruct c1 as [[] [] [] [] [] [] [] []]; try discriminate H;
      destruct c2 as [[] [] [] [] [] [] [] []]; discriminate H.
  - destruct c1 as [[] [] [] [] [] [] [] []]; try discriminate H;
      destruct c2 as [[] [] [] [] [] [] [] []]; try discriminate H.
    destruct (is_digit_0_3 d) eqn:Hd; [|discriminate H].
    destruct (digits_then_end 6 t) eqn:Ht; [|discriminate H].
    simpl in H. injection H as <-. now exists d, t.
Qed.

Lemma match_rest_intro d t :
  is_digit_0_3 d = true -> digits_then_end 6 t = true ->
  match_rest (String "6" (String "8" (String d t))) = Some (String d EmptyString).
Proof. intros Hd Ht. unfold match_rest. now rewrite Hd, Ht. Qed.

Lemma match_rest_length s g : match_rest s = Some g -> String.length s = 9.
Proof.
  intros H. destruct (match_rest_inv _ _ H) as (d & t & -> & _ & Ht & _).
  simpl. now rewrite (digits_then_end_length _ _ Ht).
Qed.

Lemma no_line_terminator_nil : no_line_terminator EmptyString.
Proof. intros c []. Qed.

Lemma no_line_terminator_cons c p :
  is_line_terminator c = false -> no_line_terminator p ->
  no_line_terminator (String c p).
Proof. intros Hc Hp c' [<-|H]; auto. Qed.

(** A match of the matcher is a match of the pattern. *)
Lemma exec_sound s g :
  exec s = Some g -> exists d, g = String d EmptyString /\ Matches s d.
Proof.
  induction s as [|c s IH]; simpl.
  - discriminate.
  - assert (Hrest : match_rest (String c s) = Some g ->
                    exists d, g = String d EmptyString /\ Matches (String c s) d).
    { intros H. destruct (match_rest_inv _ _ H) as (d & t & E & Hd & Ht & ->).
      exists d. split; [reflexivity|]. exists EmptyString, t.
      rewrite E. auto using no_line_terminator_nil. }
    destruct (is_line_terminator c) eqn:Hc; [exact Hrest|].
    destruct (exec s) as [g'|] eqn:He; [|exact Hrest].
    intros H. injection H as ->.
    destruct (IH eq_refl) as (d & -> & p & t & -> & Hp & Hd & Ht).
    exists d. split; [reflexivity|]. exists (String c p), t.
    auto using no_line_terminator_cons.
Qed.

Lemma exec_length s g : exec s = Some g -> 9 <= String.length s.
Proof.
  intros H. destruct (exec_sound _ _ H) as (d & _ & p & t & -> & _ & _ & Ht).
  rewrite length_app_string. simpl.
  rewrite (digits_then_end_length _ _ Ht). lia.
Qed.

Lemma exec_cons c s :
  exec (String c s) =
  if is_line_terminator c then match_rest (String c s)
  else match exec s with
       | Some g => Some g
       | None => match_rest (String c s)
       end.
Proof. reflexivity. Qed.

(** A match of the pattern is found by the matcher, with the same group. *)
Lemma exec_complete s d : Matches s d -> exec s = Some (String d EmptyString).
Proof.
  intros (p & t & -> & Hp & Hd & Ht).
  induction p as [|c p IH].
  - change (exec (String "6" (String "8" (String d t))) = Some (String d EmptyString)).
    rewrite exec_cons. change (is_line_terminator "6") with false. cbv iota.
    destruct (exec (String "8" (String d t))) as [g|] eqn:He.
    + apply exec_length in He. simpl in He.
      rewrite (digits_then_end_length _ _ Ht) in He. lia.
    + now apply match_rest_intro.
  - change (exec (String c (p ++ String "6" (String "8" (String d t))))
            = Some (String d EmptyString)).
    rewrite exec_cons, (Hp c (or_introl eq_refl)).
    rewrite IH; [reflexivity|]. intros c' Hc'. apply Hp. now right.
Qed.

Lemma exec_Matches s d : exec s = Some (String d EmptyString) <-> Matches s d.
Proof.
  split; [|apply exec_complete].
  intros H. destruct (exec_sound _ _ H) as (d' & E & HM). now injection E as ->.
Qed.

Lemma exec_None s : exec s = None <-> forall d, ~ Matches s d.
Proof.
  split.
  - intros H d HM. apply exec_complete in HM. congruence.
  - intros H. destruct (exec s) as [g|] eqn:He; [|reflexivity].
    destruct (exec_sound _ _ He) as (d & _ & HM). now destruct (H d).
Qed.

(** The captured character is one of the four digits. *)
Lemma is_digit_0_3_cases d :
  is_digit_0_3 d = true ->
  d = "0"%char \/ d = "1"%char \/ d = "2"%char \/ d = "3"%char.
Proof.
  destruct d as [[] [] [] [] [] [] [] []]; cbv; intros H;
    try discriminate H; auto.
Qed.

End SeggerPatternFacts.

(** ** Classification *)

Import SeggerPattern SeggerPatternFacts.

Lemma with_emitted_same s : with_emitted (emitted s) s = s.
Proof. now destruct s. Qed.

Lemma getInstanceId_spec adapter s :
  _getInstanceId adapter s
  = (with_emitted (emitted s ++ id_errors adapter) s, id_outcome s adapter).
Proof.
  unfold _getInstanceId, id_outcome, id_errors, instanceId_of.
  destruct (truthy (serialNumber adapter)) eqn:Hs.
  - destruct (serialNumber adapter); [|discriminate Hs].
    unfold ret. now rewrite List.app_nil_r, with_emitted_same.
  - destruct (truthy (comName adapter)) eqn:Hc.
    + destruct (comName adapter); [|discriminate Hc].
      unfold ret. now rewrite List.app_nil_r, with_emitted_same.
    + unfold bind, emit, ret. now destruct (heard s).
Qed.

Lemma getInstanceId_found adapter id s :
  instanceId_of adapter = Some id ->
  _getInstanceId adapter s = (s, Return (Some id)).
Proof.
  intros H. rewrite getInstanceId_spec. unfold id_errors, id_outcome.
  rewrite H. now rewrite List.app_nil_r, with_emitted_same.
Qed.

Lemma classify_Matches id d :
  Matches (ToString id) d ->
  classify id = sdVersion_of (parseInt (String d EmptyString)).
Proof.
  intros H. apply exec_complete in H. unfold classify, test. now rewrite H.
Qed.

Lemma classify_no_match id :
  (forall d, ~ Matches (ToString id) d) -> classify id = Throw UnknownAdapterVendor.
Proof.
  intros H. apply exec_None in H. unfold classify, test. now rewrite H.
Qed.

Lemma classify_undefined : classify None = Throw UnknownAdapterVendor.
Proof. reflexivity. Qed.

Lemma classify_Return id sdVersion :
  classify id = Return sdVersion ->
  (sdVersion = "v2" \/ sdVersion = "v3") /\ exists k, id = Some k.
Proof.
  intros H. split.
  - unfold classify, test in H.
    destruct (exec (ToString id)) as [g|] eqn:He; [|discriminate H].
    destruct (exec_sound _ _ He) as (d & -> & _ & _ & _ & _ & Hd & _).
    destruct (is_digit_0_3_cases _ Hd) as [-> | [-> | [-> | ->]]];
      cbv in H; injection H as <-; auto.
  - destruct id as [k|]; [now exists k|discriminate H].
Qed.

Lemma driver_of_v2 b : driver_of b "v2" = Some (v2 b).
Proof. reflexivity. Qed.

Lemma driver_of_v3 b : driver_of b "v3" = Some (v3 b).
Proof. reflexivity. Qed.

Lemma parse_Return adapter sdVersion drv s :
  classify (instanceId_of adapter) = Return sdVersion ->
  driver_of (this_bleDrivers s) sdVersion = Some drv ->
  _parseAndCreateAdapter adapter s
  = (after_parse adapter drv s, Return (List.length (store s))).
Proof.
  intros Hc Hd.
  destruct (classify_Return _ _ Hc) as [_ [k Hk]].
  unfold _parseAndCreateAdapter, bind.
  rewrite (getInstanceId_found _ _ s Hk), <- Hk.
  unfold lift. rewrite Hc. unfold selected_driver. rewrite Hd.
  reflexivity.
Qed.

Lemma heard_with_emitted l s : heard (with_emitted l s) = heard s.
Proof. reflexivity. Qed.

Lemma parse_Throw adapter message s :
  classify (instanceId_of adapter) = Throw message ->
  _parseAndCreateAdapter adapter s
  = (with_emitted (emitted s ++ id_errors adapter) s,
     Throw (thrown s adapter message)).
Proof.
  intros Hc. unfold _parseAndCreateAdapter, bind.
  rewrite getInstanceId_spec. unfold id_outcome, thrown, lift.
  destruct (instanceId_of adapter) as [id|]; [now rewrite Hc|].
  destruct (heard s); [now rewrite Hc|reflexivity].
Qed.

Lemma driver_of_classified id sdVersion b :
  classify id = Return sdVersion -> exists drv, driver_of b sdVersion = Some drv.
Proof.
  intros H. destruct (classify_Return _ _ H) as [[-> | ->] _];
    [exists (v2 b) | exists (v3 b)]; reflexivity.
Qed.

Lemma bound_to_intro adapter sdVersion drv s :
  classify (instanceId_of adapter) = Return sdVersion ->
  driver_of (this_bleDrivers s) sdVersion = Some drv ->
  bound_to adapter s drv.
Proof.
  intros Hc Hd. exists (after_parse adapter drv s), (List.length (store s)).
  exists (fresh_adapter adapter drv s). split; [now apply parse_Return with sdVersion|].
  split; [|reflexivity]. simpl.
  rewrite nth_error_app2, Nat.sub_diag; [reflexivity|lia].
Qed.

(** C1. An instance id that matches the Segger pattern is classified by the
    captured digit: 0 and 1 give ['v2'], 2 and 3 give ['v3'], and the handle
    is bound to that driver of the factory; the switch throws
    [UnsupportedHardware] on any other digit; an instance id that does not
    match the pattern makes the classification throw
    [UnknownAdapterVendor]. The instance id is what [_getInstanceId]
    returns; the one case in which it does not return, and in which the
    error of the classification is not reached, is that of a descriptor
    with no id at all on a factory that nobody listens to for errors. *)
Theorem classification_table (adapter : RawDescriptor) (s : State) :
  (instanceId_of adapter <> None \/ heard s = true ->
   snd (_getInstanceId adapter s) = Return (instanceId_of adapter))
  /\ (instanceId_of adapter = None -> heard s = false ->
      snd (_getInstanceId adapter s)
      = Throw (unhandled (a_text MissingInstanceId)))
  /\ (forall d, Matches (key_of adapter) d ->
        (d = "0"%char \/ d = "1"%char ->
           classify (instanceId_of adapter) = Return "v2"
           /\ bound_to adapter s (v2 (this_bleDrivers s)))
        /\ (d = "2"%char \/ d = "3"%char ->
              classify (instanceId_of adapter) = Return "v3"
              /\ bound_to adapter s (v3 (this_bleDrivers s)))
        /\ (d <> "0"%char -> d <> "1"%char -> d <> "2"%char -> d <> "3"%char ->
              classify (instanceId_of adapter) = Throw UnsupportedHardware
              /\ snd (_parseAndCreateAdapter adapter s) = Throw UnsupportedHardware))
  /\ (forall c, Js.is_digit c = true ->
        c <> "0"%char -> c <> "1"%char -> c <> "2"%char -> c <> "3"%char ->
        sdVersion_of (parseInt (String c EmptyString)) = Throw UnsupportedHardware)
  /\ ((forall d, ~ Matches (key_of adapter) d) ->
        classify (instanceId_of adapter) = Throw UnknownAdapterVendor
        /\ (instanceId_of adapter <> None \/ heard s = true ->
            snd (_parseAndCreateAdapter adapter s) = Throw UnknownAdapterVendor)
        /\ (instanceId_of adapter = None -> heard s = false ->
            snd (_parseAndCreateAdapter adapter s)
            = Throw (unhandled (a_text MissingInstanceId)))).
Proof.
  assert (Hid : instanceId_of adapter <> None \/ heard s = true ->
                id_outcome s adapter = Return (instanceId_of adapter)
                /\ forall m, thrown s adapter m = m).
  { unfold id_outcome, thrown. intros [H|H].
    - destruct (instanceId_of adapter); [now split|contradiction].
    - rewrite H. destruct (instanceId_of adapter); now split. }
  assert (Hno : instanceId_of adapter = None -> heard s = false ->
                id_outcome s adapter
                = Throw (unhandled (a_text MissingInstanceId))
                /\ forall m, thrown s adapter m
                             = unhandled (a_text MissingInstanceId)).
  { unfold id_outcome, thrown. intros -> ->. now split. }
  split; [intros H; rewrite getInstanceId_spec; apply (Hid H)|].
  split; [intros H H'; rewrite getInstanceId_spec; apply (Hno H H')|].
  split; [|split].
  - intros d HM. pose proof (classify_Matches _ _ HM) as Hc.
    split; [|split].
    + intros Hd.
      assert (E : classify (instanceId_of adapter) = Return "v2")
        by (destruct Hd as [-> | ->]; exact Hc).
      split; [exact E|]. now apply bound_to_intro with "v2".
    + intros Hd.
      assert (E : classify (instanceId_of adapter) = Return "v3")
        by (destruct Hd as [-> | ->]; exact Hc).
      split; [exact E|]. now apply bound_to_intro with "v3".
    + intros H0 H1 H2 H3. exfalso.
      destruct HM as (_ & _ & _ & _ & Hd & _).
      destruct (is_digit_0_3_cases _ Hd) as [-> | [-> | [-> | ->]]]; congruence.
  - intros c Hc H0 H1 H2 H3.
    destruct c as [[] [] [] [] [] [] [] []]; try discriminate Hc;
      try reflexivity; congruence.
  - intros H. pose proof (classify_no_match _ H) as Hc.
    split; [exact Hc|]. rewrite (parse_Throw _ _ _ Hc). cbn [snd]. split.
    + intros H'. now rewrite (proj2 (Hid H')).
    + intros H1 H2. now rewrite (proj2 (Hno H1 H2)).
Qed.

(** The table at the serial number 682000001 of a development kit. *)
Lemma classification_table_witness :
  Matches (key_of (dk "682000001")) "2"
  /\ classify (instanceId_of (dk "682000001")) = Return "v3"
  /\ bound_to (dk "682000001") linux (v3 (this_bleDrivers linux)).
Proof.
  assert (HM : Matches (key_of (dk "682000001")) "2").
  { exists EmptyString, "000001"%string.
    split; [reflexivity|]. split; [intros c []|]. split; reflexivity. }
  split; [exact HM|].
  exact (proj1 (proj2
                  (proj1 (proj2 (proj2
                                   (classification_table (dk "682000001") linux)))
                     "2"%char HM))
           (or_introl eq_refl)).
Defined.

(** ** One turn of each loop of [_updateAdapterList] *)

Lemma store_update_last (h : list Adapter) (a : Adapter) f :
  store_update (List.length h) f (h ++ [a]) = h ++ [f a].
Proof. induction h as [|b h IH]; simpl; [reflexivity | now rewrite IH]. Qed.

Lemma store_update_length r f (h : list Adapter) :
  List.length (store_update r f h) = List.length h.
Proof.
  revert r; induction h as [|a h IH]; intros [|r]; simpl; auto.
Qed.

Lemma store_update_ids r f (h : list Adapter) :
  (forall a, adapter_instanceId (f a) = adapter_instanceId a) ->
  map adapter_instanceId (store_update r f h) = map adapter_instanceId h.
Proof.
  intros Hf. revert r; induction h as [|a h IH]; intros [|r]; simpl;
    try reflexivity; [now rewrite Hf | now rewrite IH].
Qed.

Lemma set_listeners_id ev ls a :
  adapter_instanceId (set_listeners ev ls a) = adapter_instanceId a.
Proof. now destruct ev. Qed.

Lemma classified_or_not adapter :
  classified adapter \/ exists message, unclassified adapter message.
Proof.
  unfold classified, unclassified.
  destruct (classify (instanceId_of adapter)) as [sd|m]; eauto.
Qed.

Lemma classified_key adapter :
  classified adapter -> instanceId_of adapter = Some (key_of adapter).
Proof.
  intros [sd H]. destruct (classify_Return _ _ H) as [_ [k Hk]].
  unfold key_of. now rewrite Hk.
Qed.

Lemma classified_no_error adapter : classified adapter -> id_errors adapter = [].
Proof.
  intros H. unfold id_errors. now rewrite (classified_key _ H).
Qed.

Lemma add_step_unclassified removedAdapters adapter message s :
  unclassified adapter message ->
  add_step removedAdapters adapter s
  = (with_emitted (emitted s ++ reported s adapter) s,
     Throw (thrown s adapter message)).
Proof.
  intros Hc. unfold add_step, bind.
  rewrite getInstanceId_spec. unfold id_outcome, reported.
  destruct (instanceId_of adapter) as [id|] eqn:Hi.
  - unfold get_adapter. rewrite (parse_Throw _ _ _ Hc).
    unfold thrown, id_errors. rewrite Hi. simpl.
    now destruct (heard s); rewrite !List.app_nil_r.
  - destruct (heard s) eqn:Hh.
    + unfold get_adapter. rewrite (parse_Throw _ _ _ Hc).
      unfold thrown. rewrite Hi, heard_with_emitted, Hh. simpl.
      now rewrite <- app_assoc.
    + unfold thrown. now rewrite Hi, Hh.
Qed.

Lemma reported_In e s adapter :
  In e (reported s adapter) -> e = ev_error (a_text MissingInstanceId).
Proof.
  assert (H : In e (id_errors adapter) -> e = ev_error (a_text MissingInstanceId)).
  { unfold id_errors. destruct (instanceId_of adapter); simpl; [tauto|].
    intros [<-|[]]. reflexivity. }
  unfold reported. destruct (heard s); [|exact H].
  intros Hi. apply in_app_or in Hi. destruct Hi; now apply H.
Qed.

Lemma reported_with_emitted l s adapter :
  reported (with_emitted l s) adapter = reported s adapter.
Proof. reflexivity. Qed.

Lemma thrown_with_emitted l s adapter message :
  thrown (with_emitted l s) adapter message = thrown s adapter message.
Proof. reflexivity. Qed.

Lemma add_step_present removedAdapters adapter r s :
  classified adapter ->
  obj_get (key_of adapter) (this_adapters s) = Some r ->
  exists drv,
    add_step removedAdapters adapter s
    = (after_parse adapter drv s,
       Return (obj_delete (key_of adapter) removedAdapters)).
Proof.
  intros Hc Hr. pose proof (classified_key _ Hc) as Hk. destruct Hc as [sd Hc].
  destruct (driver_of_classified _ _ (this_bleDrivers s) Hc) as [drv Hd].
  exists drv. unfold add_step, bind.
  rewrite (getInstanceId_found _ _ s Hk). unfold get_adapter at 1.
  change (ToString (Some (key_of adapter))) with (key_of adapter).
  rewrite Hr, (parse_Return _ _ _ _ Hc Hd).
  unfold get_adapter. simpl. now rewrite Hr.
Qed.

Lemma add_step_absent removedAdapters adapter s :
  classified adapter ->
  obj_get (key_of adapter) (this_adapters s) = None ->
  exists drv,
    add_step removedAdapters adapter s
    = (after_add adapter drv s, Return removedAdapters).
Proof.
  intros Hc Hr. pose proof (classified_key _ Hc) as Hk. destruct Hc as [sd Hc].
  destruct (driver_of_classified _ _ (this_bleDrivers s) Hc) as [drv Hd].
  exists drv. unfold add_step, bind.
  rewrite (getInstanceId_found _ _ s Hk). unfold get_adapter at 1.
  change (ToString (Some (key_of adapter))) with (key_of adapter).
  rewrite Hr, (parse_Return _ _ _ _ Hc Hd).
  unfold get_adapter. simpl. rewrite Hr.
  unfold _setUpListenersForAdapterOpenAndClose, bind, put_adapter, on, emit, ret.
  simpl. rewrite !store_update_last. reflexivity.
Qed.

Lemma remove_step_found adapterId r s :
  obj_get adapterId (this_adapters s) = Some r ->
  remove_step adapterId s = (after_remove adapterId r s, Return tt).
Proof.
  intros H. unfold remove_step, bind, get_adapter. now rewrite H.
Qed.

Lemma remove_step_missing adapterId s :
  obj_get adapterId (this_adapters s) = None ->
  exists message, remove_step adapterId s = (s, Throw message).
Proof.
  intros H. unfold remove_step, bind, get_adapter. rewrite H. now eexists.
Qed.

(** A call of a callback only adds to the recorded calls. *)
Lemma invoke_calls callback args s :
  exists l o, invoke callback args s = (with_called (called s ++ l) s, o).
Proof.
  revert args; induction callback as [|f|callback IH]; intros args; simpl.
  - exists [], (Throw "TypeError: callback is not a function").
    unfold throw. rewrite List.app_nil_r. now destruct s.
  - now exists [(f, args)], (Return tt).
  - destruct args as [err|]; [apply IH|].
    destruct (is_function callback); [apply IH|].
    exists [], (Return tt). unfold ret. rewrite List.app_nil_r. now destruct s.
Qed.

(** With the table as arguments, a callback that is a function returns. *)
Lemma invoke_with_adapters callback s :
  is_function callback = true ->
  snd (invoke callback with_adapters s) = Return tt.
Proof.
  induction callback as [|f|callback IH]; simpl; intros H;
    [discriminate H | reflexivity |].
  destruct (is_function callback); [now apply IH | reflexivity].
Qed.

(** ** Loops *)

Lemma for_of_app {A L} (body : L -> A -> Eff L) l1 l2 locals s :
  for_of body (l1 ++ l2) locals s
  = (locals' <- for_of body l1 locals ;; for_of body l2 locals') s.
Proof.
  revert locals s; induction l1 as [|x l1 IH]; intros locals s; simpl.
  - reflexivity.
  - unfold bind. destruct (body locals x s) as [s1 [locals1|m]].
    + rewrite IH. reflexivity.
    + reflexivity.
Qed.

(** A property of the state that every turn keeps, whether it returns or
    throws, holds after the loop. *)
Lemma for_of_preserves {A L} (P : State -> Prop) (body : L -> A -> Eff L) :
  (forall locals x s, P s -> P (fst (body locals x s))) ->
  forall l locals s, P s -> P (fst (for_of body l locals s)).
Proof.
  intros Hbody. induction l as [|x l IH]; intros locals s Hs; simpl.
  - exact Hs.
  - unfold bind. pose proof (Hbody locals x s Hs) as H1.
    destruct (body locals x s) as [s1 [locals1|m]]; simpl in H1.
    + now apply IH.
    + exact H1.
Qed.

Lemma bind_preserves {A B} (P : State -> Prop) (c : Eff A) (k : A -> Eff B) s :
  P (fst (c s)) -> (forall a s', P s' -> P (fst (k a s'))) ->
  P (fst (bind c k s)).
Proof.
  intros Hc Hk. unfold bind. destruct (c s) as [s1 [a|m]]; simpl in *; auto.
Qed.

(** ** Tables *)

Section TableFacts.
Context {V : Type}.
Implicit Types (o : JsObject V) (k : string) (v : V).

Lemma obj_get_None k o : obj_get k o = None <-> ~ In k (keys o).
Proof.
  induction o as [|[k' v'] o IH]; simpl.
  - tauto.
  - destruct (String.eqb_spec k k') as [->|Hne].
    + split; [discriminate | intros H; destruct H; now left].
    + rewrite IH. split; [intros H [E|HI]; [now subst|auto] | tauto].
Qed.

Lemma obj_get_Some k o : In k (keys o) <-> exists v, obj_get k o = Some v.
Proof.
  pose proof (obj_get_None k o) as H.
  destruct (obj_get k o) as [v|].
  - split; [now exists v|]. intros _.
    destruct (in_dec string_dec k (keys o)) as [HI|HI]; [exact HI|].
    apply H in HI. discriminate HI.
  - split; [intros HI; now apply H in HI | intros [v Hv]; discriminate Hv].
Qed.

Lemma obj_get_set k v k' o :
  obj_get k' (obj_set k v o) = if String.eqb k' k then Some v else obj_get k' o.
Proof.
  induction o as [|[k0 v0] o IH]; simpl.
  - reflexivity.
  - destruct (String.eqb_spec k k0) as [->|Hne]; simpl.
    + now destruct (String.eqb_spec k' k0).
    + rewrite IH. destruct (String.eqb_spec k' k0) as [->|Hne'].
      * destruct (String.eqb_spec k0 k); [now subst|reflexivity].
      * reflexivity.
Qed.

Lemma obj_set_absent k v o :
  obj_get k o = None -> obj_set k v o = o ++ [(k, v)].
Proof.
  induction o as [|[k0 v0] o IH]; simpl; [reflexivity|].
  destruct (String.eqb k k0); [discriminate|].
  intros H. now rewrite IH.
Qed.

Lemma keys_set k v o : keys (obj_set k v o) = keys o ++
  match obj_get k o with Some _ => [] | None => [k] end.
Proof.
  induction o as [|[k0 v0] o IH]; simpl; [reflexivity|].
  destruct (String.eqb k k0); simpl.
  - now rewrite List.app_nil_r.
  - now rewrite IH.
Qed.

Lemma obj_get_delete k k' o :
  obj_get k' (obj_delete k o) = if String.eqb k' k then None else obj_get k' o.
Proof.
  induction o as [|[k0 v0] o IH]; simpl.
  - now destruct (String.eqb k' k).
  - destruct (String.eqb_spec k k0) as [->|Hne]; simpl.
    + rewrite IH. now destruct (String.eqb_spec k' k0).
    + rewrite IH. destruct (String.eqb_spec k' k0) as [->|Hne'].
      * destruct (String.eqb_spec k0 k); [now subst|reflexivity].
      * reflexivity.
Qed.

Lemma keys_delete k k' o :
  In k' (keys (obj_delete k o)) <-> k' <> k /\ In k' (keys o).
Proof.
  rewrite !obj_get_Some, obj_get_delete.
  destruct (String.eqb_spec k' k) as [->|Hne].
  - split; [intros [v Hv]; discriminate Hv | tauto].
  - tauto.
Qed.

Lemma keys_delete_filter k o :
  keys (obj_delete k o) = filter (fun k' => negb (String.eqb k k')) (keys o).
Proof.
  induction o as [|[k0 v0] o IH]; simpl; [reflexivity|].
  destruct (String.eqb k k0); simpl; now rewrite IH.
Qed.

Lemma NoDup_keys_delete k o : NoDup (keys o) -> NoDup (keys (obj_delete k o)).
Proof. intros H. rewrite keys_delete_filter. now apply NoDup_filter. Qed.

Lemma NoDup_keys_set k v o : NoDup (keys o) -> NoDup (keys (obj_set k v o)).
Proof.
  intros H. rewrite keys_set.
  destruct (obj_get k o) eqn:E; [now rewrite List.app_nil_r|].
  apply obj_get_None in E.
  apply NoDup_app; [exact H | repeat constructor; intros [] | ].
  intros x Hx [<-|[]]. now apply E.
Qed.

Lemma obj_delete_absent k o : ~ In k (keys o) -> obj_delete k o = o.
Proof.
  induction o as [|[k0 v0] o IH]; simpl; [reflexivity|].
  intros H. destruct (String.eqb_spec k k0) as [->|Hne]; [tauto|].
  rewrite IH; tauto.
Qed.

(** *** The order of enumeration *)

Lemma insert_index_perm x l : Permutation (insert_index x l) (x :: l).
Proof.
  induction l as [|y l IH]; simpl; [reflexivity|].
  destruct (fst x <=? fst y)%N; [reflexivity|].
  rewrite IH. apply perm_swap.
Qed.

Lemma sort_indices_perm l : Permutation (sort_indices l) l.
Proof.
  induction l as [|x l IH]; simpl; [reflexivity|].
  rewrite insert_index_perm. now constructor.
Qed.

Lemma index_keys_snd ks : map snd (index_keys ks) = filter is_index ks.
Proof.
  induction ks as [|k ks IH]; simpl; [reflexivity|].
  unfold is_index. destruct (array_index k); simpl; now rewrite IH.
Qed.

Lemma filter_split {A} (f : A -> bool) (l : list A) :
  Permutation (filter f l ++ filter (fun x => negb (f x)) l) l.
Proof.
  induction l as [|x l IH]; simpl; [reflexivity|].
  destruct (f x); simpl.
  - now constructor.
  - rewrite <- Permutation_middle. now constructor.
Qed.

Lemma own_keys_perm o : Permutation (own_keys o) (keys o).
Proof.
  unfold own_keys.
  rewrite (Permutation_map snd (sort_indices_perm (index_keys (keys o)))).
  rewrite index_keys_snd. apply filter_split.
Qed.

Lemma own_keys_In k o : In k (own_keys o) <-> In k (keys o).
Proof.
  split; apply Permutation_in;
    [apply own_keys_perm | apply Permutation_sym, own_keys_perm].
Qed.

Lemma own_keys_NoDup o : NoDup (keys o) -> NoDup (own_keys o).
Proof.
  apply Permutation_NoDup, Permutation_sym, own_keys_perm.
Qed.

(** *** [Object.assign({}, o)] *)

Lemma obj_assign_fold (source : JsObject V) ks target :
  let t' := fold_left
              (fun t k => match obj_get k source with
                          | Some v => obj_set k v t
                          | None => t
                          end) ks target in
  (NoDup (keys target) -> NoDup (keys t'))
  /\ (forall k, In k (keys t') <->
                In k (keys target) \/ (In k ks /\ In k (keys source))).
Proof.
  revert target; induction ks as [|k0 ks IH]; intros target; simpl.
  - split; [auto|]. intros k; tauto.
  - destruct (obj_get k0 source) as [v|] eqn:E.
    + destruct (IH (obj_set k0 v target)) as [IH1 IH2]. split.
      * intros H. now apply IH1, NoDup_keys_set.
      * intros k. rewrite IH2, keys_set.
        assert (Hs : In k0 (keys source)) by (apply obj_get_Some; eauto).
        destruct (obj_get k0 target) eqn:Et.
        -- rewrite List.app_nil_r.
           assert (In k0 (keys target)) by (apply obj_get_Some; eauto).
           split; [tauto|]. intros [H1|[[<-|H1] H2]]; auto.
        -- rewrite in_app_iff. simpl.
           split; [intros [[H1|[<-|[]]]|H1]; auto; tauto|].
           intros [H1|[[<-|H1] H2]]; auto.
    + destruct (IH target) as [IH1 IH2]. split; [exact IH1|].
      intros k. rewrite IH2. apply obj_get_None in E.
      split; [tauto|]. intros [H1|[[<-|H1] H2]]; tauto.
Qed.

Lemma obj_assign_empty_NoDup o : NoDup (keys (obj_assign [] o)).
Proof. apply (obj_assign_fold o (own_keys o) []). constructor. Qed.

Lemma obj_assign_empty_In k o : In k (keys (obj_assign [] o)) <-> In k (keys o).
Proof.
  unfold obj_assign. rewrite (proj2 (obj_assign_fold o (own_keys o) []) k).
  rewrite own_keys_In. simpl. tauto.
Qed.

End TableFacts.

(** ** The first loop *)

Lemma descriptors_split (adapters : list RawDescriptor) :
  Forall classified adapters
  \/ exists pre bad post message,
       adapters = pre ++ bad :: post
       /\ Forall classified pre /\ unclassified bad message.
Proof.
  induction adapters as [|x xs IH]; [left; constructor|].
  destruct (classified_or_not x) as [Hx|[m Hx]].
  - destruct IH as [IH|(pre & bad & post & m & -> & Hpre & Hbad)].
    + left. now constructor.
    + right. exists (x :: pre), bad, post, m. repeat split; auto.
  - right. exists [], x, xs, m. repeat split; auto.
Qed.

Lemma not_both adapter message :
  classified adapter -> unclassified adapter message -> False.
Proof. intros [sd H] H'. unfold unclassified in H'. congruence. Qed.

(** What a loop leaves when every descriptor is classified. *)
Lemma add_loop_Return adapters : forall removedAdapters s,
  Forall classified adapters ->
  exists s' removedAdapters',
    for_of add_step adapters removedAdapters s = (s', Return removedAdapters')
    /\ (forall k, In k (keys (this_adapters s')) <->
                  In k (keys (this_adapters s)) \/ In k (map key_of adapters))
    /\ ((forall k, In k (keys removedAdapters) -> In k (keys (this_adapters s))) ->
        forall k, In k (keys removedAdapters') <->
                  In k (keys removedAdapters) /\ ~ In k (map key_of adapters))
    /\ List.length (store s') = List.length (store s) + List.length adapters.
Proof.
  induction adapters as [|x xs IH]; intros rm s Hall.
  - exists s, rm. simpl. repeat split; try tauto. lia.
  - inversion Hall as [|? ? Hx Hxs]; subst.
    destruct (obj_get (key_of x) (this_adapters s)) as [r|] eqn:Hget.
    + destruct (add_step_present rm x r s Hx Hget) as [drv E].
      destruct (IH (obj_delete (key_of x) rm) (after_parse x drv s) Hxs)
        as (s' & rm' & E' & Hk & Hrm & Hlen).
      exists s', rm'. simpl. unfold bind. rewrite E. split; [exact E'|].
      assert (Hin : In (key_of x) (keys (this_adapters s)))
        by (apply obj_get_Some; eauto).
      simpl in Hk, Hrm, Hlen. split; [|split].
      * intros k. rewrite Hk. split; [tauto|]. intros [H|[<-|H]]; auto.
      * intros Hsub k. rewrite Hrm.
        -- rewrite keys_delete. simpl.
           split; [intros [[H1 H2] H3]|intros [H1 H2]].
           ++ split; [exact H2|]. intros [H|H]; [now subst|tauto].
           ++ split; [split; [|exact H1]|tauto].
              intros ->. apply H2. now left.
        -- intros k' H'. apply keys_delete in H'. apply Hsub, H'.
      * rewrite Hlen, length_app. simpl. lia.
    + destruct (add_step_absent rm x s Hx Hget) as [drv E].
      destruct (IH rm (after_add x drv s) Hxs)
        as (s' & rm' & E' & Hk & Hrm & Hlen).
      exists s', rm'. simpl. unfold bind. rewrite E. split; [exact E'|].
      simpl in Hk, Hrm, Hlen. rewrite keys_set, Hget in Hk.
      split; [|split].
      * intros k. rewrite Hk, in_app_iff. simpl. tauto.
      * intros Hsub k. rewrite Hrm.
        -- split; [intros [H1 H2]|tauto]. split; [exact H1|].
           intros [H|H]; [|tauto]. subst k.
           apply Hsub in H1. now apply obj_get_None in Hget.
        -- intros k' H'. rewrite keys_set, in_app_iff. left. now apply Hsub.
      * rewrite Hlen, length_app. simpl. lia.
Qed.

(** Descriptors that are all filed already change neither the table nor
    what has been emitted and called. *)
Lemma add_loop_present adapters : forall removedAdapters s,
  Forall classified adapters ->
  (forall x, In x adapters -> In (key_of x) (keys (this_adapters s))) ->
  exists s' removedAdapters',
    for_of add_step adapters removedAdapters s = (s', Return removedAdapters')
    /\ this_adapters s' = this_adapters s
    /\ emitted s' = emitted s
    /\ called s' = called s.
Proof.
  induction adapters as [|x xs IH]; intros rm s Hall Hin.
  - now exists s, rm.
  - inversion Hall as [|? ? Hx Hxs]; subst.
    destruct (proj1 (obj_get_Some _ _) (Hin x (or_introl eq_refl))) as [r Hget].
    destruct (add_step_present rm x r s Hx Hget) as [drv E].
    destruct (IH (obj_delete (key_of x) rm) (after_parse x drv s) Hxs)
      as (s' & rm' & E' & H1 & H2 & H3).
    { intros y Hy. simpl. apply Hin. now right. }
    exists s', rm'. simpl. unfold bind. rewrite E. auto.
Qed.

Lemma add_step_listeners s0 removedAdapters adapter s :
  error_listeners s = error_listeners s0 ->
  error_listeners (fst (add_step removedAdapters adapter s))
  = error_listeners s0.
Proof.
  intros H. destruct (classified_or_not adapter) as [Hx|[m Hx]].
  - destruct (obj_get (key_of adapter) (this_adapters s)) as [r|] eqn:Hget.
    + destruct (add_step_present removedAdapters adapter r s Hx Hget) as [drv E].
      now rewrite E.
    + destruct (add_step_absent removedAdapters adapter s Hx Hget) as [drv E].
      now rewrite E.
  - now rewrite (add_step_unclassified removedAdapters adapter m s Hx).
Qed.

(** The loop stops at the first descriptor that is not classified. *)
Lemma add_loop_Throw pre bad post message removedAdapters s :
  Forall classified pre -> unclassified bad message ->
  exists s1 removedAdapters1,
    for_of add_step pre removedAdapters s = (s1, Return removedAdapters1)
    /\ for_of add_step (pre ++ bad :: post) removedAdapters s
       = (with_emitted (emitted s1 ++ reported s bad) s1,
          Throw (thrown s bad message))
    /\ error_listeners s1 = error_listeners s.
Proof.
  intros Hpre Hbad.
  destruct (add_loop_Return pre removedAdapters s Hpre) as (s1 & rm1 & E & _).
  assert (Hl : error_listeners s1 = error_listeners s).
  { pose proof (for_of_preserves
                  (fun s' => error_listeners s' = error_listeners s) add_step)
      as H.
    specialize (H (add_step_listeners s) pre removedAdapters s eq_refl).
    now rewrite E in H. }
  exists s1, rm1. split; [exact E|]. split; [|exact Hl].
  rewrite for_of_app. unfold bind at 1. rewrite E. simpl. unfold bind.
  rewrite (add_step_unclassified rm1 bad message s1 Hbad).
  unfold reported, thrown, heard. now rewrite Hl.
Qed.

(** ** The second loop *)

Lemma remove_loop ks : forall s,
  NoDup ks -> (forall k, In k ks -> In k (keys (this_adapters s))) ->
  exists s',
    for_each remove_step ks s = (s', Return tt)
    /\ (forall k, obj_get k (this_adapters s')
                  = if in_dec string_dec k ks then None
                    else obj_get k (this_adapters s))
    /\ called s' = called s
    /\ List.length (store s') = List.length (store s).
Proof.
  unfold for_each.
  induction ks as [|k0 ks IH]; intros s Hnd Hin.
  - exists s. simpl. auto.
  - inversion Hnd as [|? ? Hk0 Hnd']; subst.
    destruct (proj1 (obj_get_Some _ _) (Hin k0 (or_introl eq_refl))) as [r Hget].
    destruct (IH (after_remove k0 r s) Hnd') as (s' & E & Hk & Hc & Hl).
    { intros k Hk. simpl. apply keys_delete. split; [|apply Hin; now right].
      intros ->. contradiction. }
    exists s'. simpl. unfold bind. rewrite (remove_step_found k0 r s Hget).
    split; [exact E|]. split; [|split; [exact Hc|]].
    + intros k. rewrite Hk. simpl. rewrite obj_get_delete.
      destruct (string_dec k0 k) as [->|Hne].
      * rewrite String.eqb_refl. now destruct (in_dec string_dec k ks).
      * destruct (in_dec string_dec k ks); [reflexivity|].
        destruct (String.eqb_spec k k0); [now subst|reflexivity].
    + rewrite Hl. simpl. apply store_update_length.
Qed.

(** ** The whole pass *)

Lemma with_called_same s : with_called (called s ++ []) s = s.
Proof. rewrite List.app_nil_r. now destruct s. Qed.

(** The completion callback after the loops. *)
Lemma completion callback s :
  exists l,
    (if is_function callback then invoke callback with_adapters else ret tt) s
    = (with_called (called s ++ l) s, Return tt).
Proof.
  destruct (is_function callback) eqn:Hf.
  - destruct (invoke_calls callback with_adapters s) as (l & o & E).
    pose proof (invoke_with_adapters callback s Hf) as Ho.
    rewrite E in Ho. simpl in Ho. subst o. now exists l.
  - exists []. unfold ret. now rewrite with_called_same.
Qed.

(** A pass over classified descriptors runs both loops and returns. *)
Lemma update_complete callback adapters s :
  Forall classified adapters ->
  exists sa removedAdapters sr l,
    for_of add_step adapters (obj_assign [] (this_adapters s)) s
    = (sa, Return removedAdapters)
    /\ for_each remove_step (own_keys removedAdapters) sa = (sr, Return tt)
    /\ _updateAdapterList callback (enum_adapters adapters) s
       = (with_called (called sr ++ l) sr, Return tt)
    /\ (forall k, In k (keys (this_adapters sa)) <->
                  In k (keys (this_adapters s)) \/ In k (map key_of adapters))
    /\ (forall k, In k (own_keys removedAdapters) <->
                  In k (keys (this_adapters s)) /\ ~ In k (map key_of adapters))
    /\ (forall k, obj_get k (this_adapters sr)
                  = if in_dec string_dec k (own_keys removedAdapters) then None
                    else obj_get k (this_adapters sa))
    /\ List.length (store sr) = List.length (store s) + List.length adapters.
Proof.
  intros Hall.
  destruct (add_loop_Return adapters (obj_assign [] (this_adapters s)) s Hall)
    as (sa & rm & Ea & Hsa & Hrm & Hlen).
  assert (Hrm' : forall k, In k (own_keys rm) <->
                   In k (keys (this_adapters s)) /\ ~ In k (map key_of adapters)).
  { intros k. rewrite own_keys_In, Hrm, obj_assign_empty_In; [tauto|].
    intros k'. now rewrite obj_assign_empty_In. }
  assert (Hnd : NoDup (keys rm)).
  { clear - Ea. pose proof (obj_assign_empty_NoDup (this_adapters s)) as H0.
    revert Ea H0. generalize (obj_assign [] (this_adapters s)). revert s.
    induction adapters as [|x xs IH]; intros s rm0 E H0; simpl in E.
    - injection E as _ <-. exact H0.
    - unfold bind in E.
      destruct (classified_or_not x) as [Hx|[m Hx]].
      + destruct (obj_get (key_of x) (this_adapters s)) as [r|] eqn:Hget.
        * destruct (add_step_present rm0 x r s Hx Hget) as [drv Ex].
          rewrite Ex in E. eapply IH; [exact E|]. now apply NoDup_keys_delete.
        * destruct (add_step_absent rm0 x s Hx Hget) as [drv Ex].
          rewrite Ex in E. eapply IH; [exact E|exact H0].
      + rewrite (add_step_unclassified rm0 x m s Hx) in E. discriminate E. }
  destruct (remove_loop (own_keys rm) sa (own_keys_NoDup rm Hnd))
    as (sr & Er & Hsr & _ & Hl).
  { intros k Hk. apply Hrm' in Hk. apply Hsa. tauto. }
  destruct (completion callback sr) as [l El].
  exists sa, rm, sr, l.
  split; [exact Ea|]. split; [exact Er|].
  split; [unfold _updateAdapterList, bind; rewrite Ea, Er; exact El|].
  split; [exact Hsa|]. split; [exact Hrm'|]. split; [exact Hsr|]. lia.
Qed.

(** A pass stops at the first descriptor that is not classified: the second
    loop does not run and the callback is not called. *)
Lemma update_abort callback pre bad post message s :
  Forall classified pre -> unclassified bad message ->
  exists s1 removedAdapters1,
    for_of add_step pre (obj_assign [] (this_adapters s)) s
    = (s1, Return removedAdapters1)
    /\ _updateAdapterList callback (enum_adapters (pre ++ bad :: post)) s
       = (with_emitted (emitted s1 ++ reported s bad) s1,
          Throw (thrown s bad message)).
Proof.
  intros Hpre Hbad.
  destruct (add_loop_Throw pre bad post message
              (obj_assign [] (this_adapters s)) s Hpre Hbad)
    as (s1 & rm1 & E1 & E & _).
  exists s1, rm1. split; [exact E1|].
  unfold _updateAdapterList, bind. now rewrite E.
Qed.

(** ** Idempotence *)

Lemma id_errors_In e adapter :
  In e (id_errors adapter) -> e = ev_error (a_text MissingInstanceId).
Proof.
  unfold id_errors. destruct (instanceId_of adapter); simpl; [tauto|].
  intros [<-|[]]. reflexivity.
Qed.

Lemma no_element {A} (l : list A) : (forall x, ~ In x l) -> l = [].
Proof.
  destruct l as [|x l]; [reflexivity|]. intros H. destruct (H x). now left.
Qed.

(** C3. A second pass over the same descriptors, right after a first one,
    emits no [added] and no [removed] event and leaves the table of adapters
    as it is. *)
Theorem reconcile_idempotent (s : State) (callback callback' : Callback)
    (adapters : list RawDescriptor) :
  let s1 := fst (_updateAdapterList callback (enum_adapters adapters) s) in
  let s2 := fst (_updateAdapterList callback' (enum_adapters adapters) s1) in
  this_adapters s2 = this_adapters s1
  /\ keys (this_adapters s2) = keys (this_adapters s1)
  /\ exists evs,
       emitted s2 = emitted s1 ++ evs
       /\ (forall r, ~ In (ev_added r) evs)
       /\ (forall r, ~ In (ev_removed r) evs).
Proof.
  intros s1 s2.
  cut (this_adapters s2 = this_adapters s1
       /\ exists evs,
            emitted s2 = emitted s1 ++ evs
            /\ (forall r, ~ In (ev_added r) evs)
            /\ (forall r, ~ In (ev_removed r) evs)).
  { intros [H1 H2]. split; [exact H1|]. split; [now rewrite H1|exact H2]. }
  subst s1 s2.
  destruct (descriptors_split adapters)
    as [Hall | (pre & bad & post & m & -> & Hpre & Hbad)].
  - (* the first pass completes *)
    destruct (update_complete callback adapters s Hall)
      as (sa & rm & sr & l & _ & _ & E & Hsa & Hrm & Hsr & _).
    rewrite E. cbn [fst]. set (s1 := with_called (called sr ++ l) sr).
    assert (Hkeys : forall k, In k (keys (this_adapters s1)) <->
                              In k (map key_of adapters)).
    { intros k. subst s1. cbn [this_adapters with_called].
      rewrite obj_get_Some, Hsr.
      destruct (in_dec string_dec k (own_keys rm)) as [Hi|Hi].
      - apply Hrm in Hi. split; [intros [v Hv]; discriminate Hv | tauto].
      - rewrite <- obj_get_Some, Hsa. rewrite Hrm in Hi.
        destruct (in_dec string_dec k (map key_of adapters)); tauto. }
    destruct (update_complete callback' adapters s1 Hall)
      as (sa2 & rm2 & sr2 & l2 & Ea2 & Er2 & E2 & _ & Hrm2 & _ & _).
    destruct (add_loop_present adapters (obj_assign [] (this_adapters s1)) s1 Hall)
      as (sa2' & rm2' & Ea2' & Ht & He & _).
    { intros x Hx. apply Hkeys. now apply in_map. }
    rewrite Ea2 in Ea2'. injection Ea2' as <- <-.
    assert (Hnil : own_keys rm2 = []).
    { apply no_element. intros k Hk. apply Hrm2 in Hk.
      destruct Hk as [Hk1 Hk2]. now apply Hkeys in Hk1. }
    rewrite Hnil in Er2. injection Er2 as <-.
    rewrite E2. cbn [fst this_adapters emitted with_called].
    split; [exact Ht|]. exists []. rewrite List.app_nil_r.
    split; [exact He|]. split; intros r [].
  - (* the first pass stops at [bad] *)
    destruct (update_abort callback pre bad post m s Hpre Hbad)
      as (sp & rmp & Ep & E).
    rewrite E. cbn [fst].
    set (s1 := with_emitted (emitted sp ++ reported s bad) sp).
    destruct (add_loop_Return pre (obj_assign [] (this_adapters s)) s Hpre)
      as (sp' & rmp' & Ep' & Hsp & _).
    rewrite Ep in Ep'. injection Ep' as <- <-.
    destruct (update_abort callback' pre bad post m s1 Hpre Hbad)
      as (sp2 & rmp2 & Ep2 & E2).
    destruct (add_loop_present pre (obj_assign [] (this_adapters s1)) s1 Hpre)
      as (sp2' & rmp2' & Ep2' & Ht & He & _).
    { intros x Hx. subst s1. cbn [this_adapters with_emitted].
      apply Hsp. right. now apply in_map. }
    rewrite Ep2 in Ep2'. injection Ep2' as <- <-.
    rewrite E2. cbn [fst this_adapters emitted with_emitted].
    split; [exact Ht|]. exists (reported s1 bad).
    split; [now rewrite He|].
    split; intros r Hr; apply reported_In in Hr; discriminate Hr.
Qed.

(** ** What a pass keeps *)

Lemma added_are_new_grow t h a evs :
  added_are_new t h evs -> added_are_new t (h ++ [a]) evs.
Proof.
  intros H r Hr. destruct (H r Hr) as (k & Hk & Hn). exists k.
  split; [|exact Hn]. rewrite map_app, nth_error_app1; [exact Hk|].
  apply nth_error_Some. congruence.
Qed.

Lemma added_are_new_ids t h h' evs :
  map adapter_instanceId h' = map adapter_instanceId h ->
  added_are_new t h evs -> added_are_new t h' evs.
Proof. intros E H r Hr. rewrite E. exact (H r Hr). Qed.

Lemma added_are_new_errors t h evs s adapter :
  added_are_new t h evs -> added_are_new t h (evs ++ reported s adapter).
Proof.
  intros H r Hr. apply in_app_or in Hr. destruct Hr as [Hr|Hr]; [exact (H r Hr)|].
  apply reported_In in Hr. discriminate Hr.
Qed.

Lemma AddFrame_refl s : AddFrame s s.
Proof.
  split; [auto|]. split; [reflexivity|]. exists [].
  rewrite List.app_nil_r. split; [reflexivity|]. split; intros r [].
Qed.

Lemma add_step_frame s0 removedAdapters adapter s :
  AddFrame s0 s -> AddFrame s0 (fst (add_step removedAdapters adapter s)).
Proof.
  intros (Hm & Hc & evs & He & Hr & Ha).
  destruct (classified_or_not adapter) as [Hx|[m Hx]].
  - destruct (obj_get (key_of adapter) (this_adapters s)) as [r|] eqn:Hget.
    + destruct (add_step_present removedAdapters adapter r s Hx Hget) as [drv E].
      rewrite E. cbn [fst]. split; [exact Hm|]. split; [exact Hc|].
      exists evs. split; [exact He|]. split; [exact Hr|].
      now apply added_are_new_grow.
    + destruct (add_step_absent removedAdapters adapter s Hx Hget) as [drv E].
      rewrite E. cbn [fst]. split; [|split; [exact Hc|]].
      * intros k r Hk. cbn [this_adapters after_add]. rewrite obj_get_set.
        destruct (String.eqb_spec k (key_of adapter)) as [->|Hne]; [|auto].
        apply Hm in Hk. congruence.
      * exists (evs ++ [ev_added (List.length (store s))]).
        cbn [emitted after_add store]. split; [now rewrite He, app_assoc|].
        split.
        -- intros r Hi. apply in_app_or in Hi.
           destruct Hi as [Hi|[Hi|[]]]; [now apply (Hr r)|discriminate Hi].
        -- intros r Hi. apply in_app_or in Hi. destruct Hi as [Hi|[Hi|[]]].
           ++ now apply (added_are_new_grow _ _ _ _ Ha).
           ++ injection Hi as <-. exists (key_of adapter). split.
              ** rewrite map_app, nth_error_app2, length_map, Nat.sub_diag;
                   [|rewrite length_map; lia].
                 cbn. now rewrite (classified_key _ Hx).
              ** destruct (obj_get (key_of adapter) (this_adapters s0)) eqn:E0;
                   [|reflexivity].
                 apply Hm in E0. congruence.
  - rewrite (add_step_unclassified removedAdapters adapter m s Hx). cbn [fst].
    split; [exact Hm|]. split; [exact Hc|].
    exists (evs ++ reported s adapter).
    cbn [emitted with_emitted store].
    split; [now rewrite He, <- !app_assoc|]. split.
    + intros r Hi. apply in_app_or in Hi. destruct Hi as [Hi|Hi];
        [now apply (Hr r)|].
      apply reported_In in Hi. discriminate Hi.
    + now apply added_are_new_errors.
Qed.

Lemma add_loop_frame adapters removedAdapters s :
  AddFrame s (fst (for_of add_step adapters removedAdapters s)).
Proof.
  apply (for_of_preserves (AddFrame s)); [|apply AddFrame_refl].
  intros rm x s' H. now apply add_step_frame.
Qed.





(** ** The error branch *)

(** C6, as the code has it. When the enumeration reports an error, the pass
    leaves the table of adapters and the adapters themselves as they are
    and emits one [error] event with the error. On a factory that has a
    listener of [error], a function given as callback, directly or through
    [getAdapters], is then called once with the error alone; on a factory
    that has none, [emit] throws the error and no callback is called. *)
Theorem enumeration_error_is_atomic (s : State) (callback : Callback)
    (err : string) :
  let result := _updateAdapterList callback (enum_error err) s in
  this_adapters (fst result) = this_adapters s
  /\ store (fst result) = store s
  /\ addOns (fst result) = addOns s
  /\ emitted (fst result) = emitted s ++ [ev_error (an_error err)]
  /\ (heard s = true ->
      forall f,
        getAdapters (function f) (enum_error err) s
        = (with_called (called s ++ [(f, with_error err)])
             (with_emitted (emitted s ++ [ev_error (an_error err)]) s),
           Return tt)
        /\ _updateAdapterList (function f) (enum_error err) s
           = (with_called (called s ++ [(f, with_error err)])
                (with_emitted (emitted s ++ [ev_error (an_error err)]) s),
              Return tt))
  /\ (heard s = false ->
      result
      = (with_emitted (emitted s ++ [ev_error (an_error err)]) s, Throw err)).
Proof.
  cbn zeta.
  assert (He : emit (ev_error (an_error err)) s
               = (with_emitted (emitted s ++ [ev_error (an_error err)]) s,
                  if heard s then Return tt else Throw err)) by reflexivity.
  unfold getAdapters, _updateAdapterList, bind. rewrite He.
  destruct (heard s) eqn:Hh.
  - assert (H : exists l o,
               (if is_function callback then invoke callback (with_error err)
                else ret tt)
                 (with_emitted (emitted s ++ [ev_error (an_error err)]) s)
               = (with_called
                    (called (with_emitted
                               (emitted s ++ [ev_error (an_error err)]) s) ++ l)
                    (with_emitted (emitted s ++ [ev_error (an_error err)]) s),
                  o)).
    { destruct (is_function callback); [apply invoke_calls|].
      exists [], (Return tt). unfold ret. now rewrite with_called_same. }
    destruct H as (l & o & ->). cbn [fst].
    split; [reflexivity|]. split; [reflexivity|]. split; [reflexivity|].
    split; [reflexivity|]. split; [|intros Hd; discriminate Hd].
    intros _ f. split; reflexivity.
  - cbn [fst].
    split; [reflexivity|]. split; [reflexivity|]. split; [reflexivity|].
    split; [reflexivity|]. split; [intros Hd; discriminate Hd|reflexivity].
Qed.

Lemma enumeration_error_is_atomic_witness :
  heard (run [op_on_error] (new_factory "linux" _bleDrivers)) = true
  /\ called
       (fst (getAdapters (function 7) (enum_error "no driver")
               (run [op_on_error] (new_factory "linux" _bleDrivers))))
     = [(7, with_error "no driver")].
Proof.
  assert (H : heard (run [op_on_error] (new_factory "linux" _bleDrivers)) = true)
    by reflexivity.
  split; [exact H|].
  exact (f_equal (fun r => called (fst r))
           (proj1 (proj1 (proj2 (proj2 (proj2 (proj2
                     (enumeration_error_is_atomic
                        (run [op_on_error] (new_factory "linux" _bleDrivers))
                        not_a_function "no driver"))))) H 7))).
Defined.

(** The claim C6 fails: on a factory as the constructor leaves it, with no
    listener of [error], [getAdapters] is given a function and the
    enumeration fails; [emit] throws the error and the function is never
    called. *)
Lemma enumeration_error_counterexample :
  let result :=
    getAdapters (function 7) (enum_error "no driver")
      (new_factory "linux" _bleDrivers) in
  snd result = Throw "no driver"
  /\ called (fst result) = []
  /\ emitted (fst result) = [ev_error (an_error "no driver")].
Proof. vm_compute. repeat split. Qed.

(** ** Descriptors that are not classified *)

Lemma thrown_message s adapter message :
  instanceId_of adapter <> None \/ heard s = true ->
  thrown s adapter message = message.
Proof.
  unfold thrown. intros [H|H].
  - destruct (instanceId_of adapter); [reflexivity|contradiction].
  - rewrite H. now destruct (instanceId_of adapter).
Qed.

(** C4, as the code has it. A descriptor whose classification fails stops
    the pass with the error thrown: the descriptors before it have been
    processed (their ids are filed, the entries of the table are kept), the
    descriptors after it are not looked at, no adapter is removed and the
    callback is not called. The error thrown is that of the classification;
    for a descriptor with no id at all on a factory that nobody listens to
    for errors, it is the one that [emit] throws before. *)
Theorem classification_failure_stops_the_pass (s : State) (callback : Callback)
    (pre post : list RawDescriptor) (bad : RawDescriptor) (message : string) :
  Forall classified pre -> unclassified bad message ->
  let result :=
    _updateAdapterList callback (enum_adapters (pre ++ bad :: post)) s in
  snd result = Throw (thrown s bad message)
  /\ (instanceId_of bad <> None \/ heard s = true -> snd result = Throw message)
  /\ result = _updateAdapterList callback (enum_adapters (pre ++ [bad])) s
  /\ (forall k, In k (keys (this_adapters (fst result))) <->
                In k (keys (this_adapters s)) \/ In k (map key_of pre))
  /\ (forall k r, obj_get k (this_adapters s) = Some r ->
                  obj_get k (this_adapters (fst result)) = Some r)
  /\ called (fst result) = called s
  /\ exists evs,
       emitted (fst result) = emitted s ++ evs
       /\ forall r, ~ In (ev_removed r) evs.
Proof.
  intros Hpre Hbad result. subst result.
  destruct (update_abort callback pre bad post message s Hpre Hbad)
    as (s1 & rm1 & E1 & E).
  destruct (update_abort callback pre bad [] message s Hpre Hbad)
    as (s1' & rm1' & E1' & E').
  rewrite E1 in E1'. injection E1' as <- <-.
  rewrite E, E'. cbn [fst snd this_adapters called emitted with_emitted].
  destruct (add_loop_Return pre (obj_assign [] (this_adapters s)) s Hpre)
    as (s2 & rm2 & E2 & Hk & _).
  rewrite E1 in E2. injection E2 as <- <-.
  pose proof (add_loop_frame pre (obj_assign [] (this_adapters s)) s) as HF.
  rewrite E1 in HF. cbn [fst] in HF.
  destruct HF as (Hm & Hc & evs & He & Hr & _).
  split; [reflexivity|].
  split; [intros H; now rewrite (thrown_message _ _ _ H)|].
  split; [reflexivity|]. split; [exact Hk|].
  split; [exact Hm|]. split; [exact Hc|].
  exists (evs ++ reported s bad).
  split; [now rewrite He, <- app_assoc|].
  intros r Hi. apply in_app_or in Hi. destruct Hi as [Hi|Hi]; [now apply (Hr r)|].
  apply reported_In in Hi. discriminate Hi.
Qed.


(** ** Adapters that are filed already *)


(** ** One adapter for an instance id *)

Lemma Filed_new_factory os_platform bleDrivers :
  Filed (new_factory os_platform bleDrivers).
Proof. split; [constructor | intros k r H; discriminate H]. Qed.

Lemma add_step_Filed removedAdapters adapter s :
  Filed s -> Filed (fst (add_step removedAdapters adapter s)).
Proof.
  intros [Hnd Hf].
  destruct (classified_or_not adapter) as [Hx|[m Hx]].
  - assert (Hgrow : forall k r a,
              obj_get k (this_adapters s) = Some r ->
              nth_error (map adapter_instanceId (store s ++ [a])) r
              = Some (Some k)).
    { intros k r a Hk. apply Hf in Hk.
      rewrite map_app, nth_error_app1; [exact Hk|].
      apply nth_error_Some. congruence. }
    destruct (obj_get (key_of adapter) (this_adapters s)) as [r|] eqn:Hget.
    + destruct (add_step_present removedAdapters adapter r s Hx Hget) as [drv E].
      rewrite E. cbn [fst]. split; [exact Hnd|].
      intros k r'. cbn [this_adapters store after_parse with_store with_addOns].
      apply Hgrow.
    + destruct (add_step_absent removedAdapters adapter s Hx Hget) as [drv E].
      rewrite E. cbn [fst]. split; cbn [this_adapters store after_add].
      * now apply NoDup_keys_set.
      * intros k r'. rewrite obj_get_set.
        destruct (String.eqb_spec k (key_of adapter)) as [->|Hne];
          [|apply Hgrow].
        intros H. injection H as <-.
        rewrite map_app, nth_error_app2, length_map, Nat.sub_diag;
          [|rewrite length_map; lia].
        cbn. now rewrite (classified_key _ Hx).
  - rewrite (add_step_unclassified removedAdapters adapter m s Hx). now split.
Qed.

Lemma remove_step_Filed adapterId s :
  Filed s -> Filed (fst (remove_step adapterId s)).
Proof.
  intros [Hnd Hf].
  destruct (obj_get adapterId (this_adapters s)) as [r|] eqn:Hget.
  - rewrite (remove_step_found adapterId r s Hget). cbn [fst].
    split; cbn [this_adapters store after_remove].
    + now apply NoDup_keys_delete.
    + intros k r'. rewrite obj_get_delete.
      destruct (String.eqb k adapterId); [discriminate|].
      rewrite store_update_ids; [apply Hf|]. intros a. apply set_listeners_id.
  - destruct (remove_step_missing adapterId s Hget) as [m E]. rewrite E.
    now split.
Qed.

Lemma with_called_Filed l s : Filed s -> Filed (with_called l s).
Proof. intros H. exact H. Qed.

Lemma with_emitted_Filed l s : Filed s -> Filed (with_emitted l s).
Proof. intros H. exact H. Qed.

Lemma invoke_Filed callback args s :
  Filed s -> Filed (fst (invoke callback args s)).
Proof.
  intros H. destruct (invoke_calls callback args s) as (l & o & ->). exact H.
Qed.

Lemma callback_Filed callback args s :
  Filed s ->
  Filed (fst ((if is_function callback then invoke callback args else ret tt) s)).
Proof.
  intros H. destruct (is_function callback); [now apply invoke_Filed|exact H].
Qed.

Lemma update_Filed callback result s :
  Filed s -> Filed (fst (_updateAdapterList callback result s)).
Proof.
  intros H. destruct result as [err|adapters]; unfold _updateAdapterList.
  - apply bind_preserves; [exact H|]. intros _ s' H'. now apply callback_Filed.
  - apply bind_preserves.
    + apply (for_of_preserves Filed); [|exact H].
      intros rm x s' H'. now apply add_step_Filed.
    + intros rm s' H'. apply bind_preserves.
      * unfold for_each. apply (for_of_preserves Filed); [|exact H'].
        intros _ k s'' H''. now apply remove_step_Filed.
      * intros _ s'' H''. now apply callback_Filed.
Qed.

Lemma adapter_emit_Filed adapter ev payload s :
  Filed s -> Filed (fst (adapter_emit adapter ev payload s)).
Proof.
  intros H. unfold adapter_emit.
  destruct (nth_error (store s) adapter) as [a|]; [|exact H].
  unfold for_each. apply (for_of_preserves Filed); [|exact H].
  intros _ l s' H'. now destruct l.
Qed.

Lemma run_Filed ops : forall s, Filed s -> Filed (run ops s).
Proof.
  induction ops as [|op ops IH]; intros s H; [exact H|].
  apply IH.
  destruct op;
    [now apply update_Filed|now apply adapter_emit_Filed|exact H|exact H].
Qed.

Lemma obj_get_In {V} (k : string) (v : V) (o : JsObject V) :
  NoDup (keys o) -> In (k, v) o -> obj_get k o = Some v.
Proof.
  induction o as [|[k0 v0] o IH]; simpl; [tauto|].
  intros Hnd [E|Hi].
  - injection E as -> ->. now rewrite String.eqb_refl.
  - inversion Hnd as [|? ? Hk0 Hnd']; subst.
    destruct (String.eqb_spec k k0) as [->|Hne]; [|now apply IH].
    destruct Hk0. change k0 with (fst (k0, v)). now apply in_map.
Qed.

(** C2. Whatever has happened to a factory since its construction (passes
    that complete, passes that stop on an error, notifications of
    adapters), its table files at most one adapter for an instance id: no
    key occurs twice, every adapter in the table is filed under its own
    instance id, so two entries whose adapters have the same instance id
    are one entry; and a turn of the loop on a descriptor whose id is filed
    leaves the table as it is. *)
Theorem one_adapter_per_instance_id (os_platform : string)
    (bleDrivers : BleDrivers) (ops : list Op) :
  let s := run ops (new_factory os_platform bleDrivers) in
  NoDup (keys (this_adapters s))
  /\ (forall k r, In (k, r) (this_adapters s) ->
        exists a, nth_error (store s) r = Some a
                  /\ adapter_instanceId a = Some k)
  /\ (forall k1 r1 a1 k2 r2 a2,
        In (k1, r1) (this_adapters s) -> In (k2, r2) (this_adapters s) ->
        nth_error (store s) r1 = Some a1 -> nth_error (store s) r2 = Some a2 ->
        adapter_instanceId a1 = adapter_instanceId a2 ->
        k1 = k2 /\ r1 = r2)
  /\ (forall removedAdapters adapter r,
        obj_get (key_of adapter) (this_adapters s) = Some r ->
        this_adapters (fst (add_step removedAdapters adapter s))
        = this_adapters s).
Proof.
  intros s.
  destruct (run_Filed ops _ (Filed_new_factory os_platform bleDrivers))
    as [Hnd Hf]. fold s in Hnd, Hf.
  assert (Hown : forall k r a, In (k, r) (this_adapters s) ->
                   nth_error (store s) r = Some a ->
                   adapter_instanceId a = Some k).
  { intros k r a Hi Ha. apply (obj_get_In _ _ _ Hnd), Hf in Hi.
    rewrite (map_nth_error adapter_instanceId _ _ Ha) in Hi. congruence. }
  split; [exact Hnd|]. split; [|split].
  - intros k r Hi. pose proof (Hf k r (obj_get_In _ _ _ Hnd Hi)) as Hn.
    destruct (nth_error (store s) r) as [a|] eqn:Ha.
    + exists a. split; [reflexivity|]. now apply (Hown k r).
    + apply nth_error_None in Ha.
      assert (nth_error (map adapter_instanceId (store s)) r = None)
        by (apply nth_error_None; now rewrite length_map).
      congruence.
  - intros k1 r1 a1 k2 r2 a2 H1 H2 Ha1 Ha2 E.
    pose proof (Hown _ _ _ H1 Ha1) as E1. pose proof (Hown _ _ _ H2 Ha2) as E2.
    assert (k1 = k2) by congruence. subst k2. split; [reflexivity|].
    apply (obj_get_In _ _ _ Hnd) in H1, H2. congruence.
  - intros rm x r Hget.
    destruct (classified_or_not x) as [Hx|[m Hx]].
    + destruct (add_step_present rm x r s Hx Hget) as [drv E]. now rewrite E.
    + now rewrite (add_step_unclassified rm x m s Hx).
Qed.

(** ** Removal and the listeners *)

(** A turn of the second loop detaches the [opened] listeners of the adapter
    it removes and leaves its [closed] listeners attached. *)
Lemma remove_step_listeners adapterId r a s :
  obj_get adapterId (this_adapters s) = Some r ->
  nth_error (store s) r = Some a ->
  exists a',
    nth_error (store (fst (remove_step adapterId s))) r = Some a'
    /\ on_opened a' = [] /\ on_closed a' = on_closed a.
Proof.
  intros Hget Ha. rewrite (remove_step_found adapterId r s Hget).
  cbn [fst store after_remove]. exists (set_listeners opened [] a).
  split; [|now split]. clear Hget. revert r Ha.
  induction (store s) as [|b h IH]; intros [|r] Ha; try discriminate Ha.
  - injection Ha as ->. reflexivity.
  - simpl. now apply IH.
Qed.

(** C5 at work: a development kit is enumerated, then it is gone; its
    adapter is removed, and a [closed] notification of the removed adapter
    still comes out of the factory as [adapterClosed], where an [opened] one
    does not come out any more. *)
Theorem closed_listener_outlives_removal :
  let s :=
    run [op_update not_a_function (enum_adapters [dk "680123456"]);
         op_update not_a_function (enum_adapters [])] linux in
  this_adapters s = []
  /\ emitted s = [ev_added 0; ev_removed 0]
  /\ emitted (fst (adapter_emit 0 opened 0 s)) = [ev_added 0; ev_removed 0]
  /\ emitted (fst (adapter_emit 0 closed 0 s))
     = [ev_added 0; ev_removed 0; ev_adapterClosed 0].
Proof. vm_compute. repeat split. Qed.

(** ** The claims at work *)

Lemma dk_classified serial sdVersion :
  classify (Some serial) = Return sdVersion -> classified (dk serial).
Proof.
  intros H. exists sdVersion. unfold instanceId_of. cbn.
  destruct (String.eqb_spec serial "") as [->|_]; [discriminate H|exact H].
Qed.

(** The claim C4 fails: a port name that is not classified stops the pass;
    the development kit after it is classified and is not filed, and the
    callback is not called. So does a nameless descriptor, here on a
    factory that listens to its errors. *)
Lemma classification_failure_counterexample :
  let result :=
    _updateAdapterList (function 0)
      (enum_adapters [dk "COM3"; dk "680123456"]) linux in
  let result' :=
    _updateAdapterList (function 0)
      (enum_adapters [nameless; dk "680123456"]) (run [op_on_error] linux) in
  classify (instanceId_of (dk "680123456")) = Return "v2"
  /\ snd result = Throw UnknownAdapterVendor
  /\ this_adapters (fst result) = []
  /\ called (fst result) = []
  /\ snd result' = Throw UnknownAdapterVendor
  /\ this_adapters (fst result') = []
  /\ called (fst result') = [].
Proof. vm_compute. repeat split. Qed.



Lemma classification_failure_stops_the_pass_witness :
  Forall classified [dk "680123456"]
  /\ unclassified (dk "COM3") UnknownAdapterVendor
  /\ (instanceId_of (dk "COM3") <> None \/ heard linux = true)
  /\ snd (_updateAdapterList (function 0)
            (enum_adapters ([dk "680123456"] ++ dk "COM3" :: [dk "682000001"]))
            linux)
     = Throw UnknownAdapterVendor.
Proof.
  assert (H1 : Forall classified [dk "680123456"]).
  { constructor; [|constructor]. now apply dk_classified with "v2". }
  assert (H2 : unclassified (dk "COM3") UnknownAdapterVendor) by reflexivity.
  assert (H3 : instanceId_of (dk "COM3") <> None \/ heard linux = true)
    by (left; discriminate).
  split; [exact H1|]. split; [exact H2|]. split; [exact H3|].
  exact (proj1 (proj2 (classification_failure_stops_the_pass linux (function 0)
                         [dk "680123456"] [dk "682000001"] (dk "COM3")
                         UnknownAdapterVendor H1 H2)) H3).
Defined.



Lemma one_adapter_per_instance_id_witness :
  NoDup (keys (this_adapters
                 (run [op_update not_a_function
                         (enum_adapters [dk "680123456"; dk "680123456"])]
                    (new_factory "linux" _bleDrivers)))).
Proof.
  exact (proj1 (one_adapter_per_instance_id "linux" _bleDrivers
                  [op_update not_a_function
                     (enum_adapters [dk "680123456"; dk "680123456"])])).
Defined.

(** ** The singleton *)

Lemma strict_equal_eq x y : strict_equal x y = true <-> x = y.
Proof.
  destruct x, y; simpl; try (split; [discriminate|discriminate]);
    try (split; reflexivity).
  - rewrite String.eqb_eq. split; congruence.
  - rewrite Nat.eqb_eq. split; congruence.
  - rewrite Nat.eqb_eq. split; congruence.
Qed.

Lemma constructor_outside singletonToken bleDrivers p :
  singletonToken <> _singleton ->
  constructor singletonToken bleDrivers p = (p, Throw DuplicateConstruction).
Proof.
  intros H. unfold constructor.
  destruct (strict_equal _singleton singletonToken) eqn:E; [|reflexivity].
  apply strict_equal_eq in E. congruence.
Qed.

Lemma call_settled c p :
  outside c -> settled p ->
  settled (fst (call c p)) /\ snd (call c p) = expected c
  /\ (forall b, c = call_getInstance b -> instance (fst (call c p)) = Some 0).
Proof.
  intros Hc Hp. destruct c as [b|tok b]; simpl.
  - unfold getInstance. destruct Hp as [[Hi Hf]|[Hi Hf]]; rewrite Hi.
    + unfold constructor. simpl. rewrite Hf. simpl.
      split; [right; now split|]. now split.
    + simpl. split; [right; now split|]. now split.
  - rewrite (constructor_outside _ _ _ Hc). simpl.
    split; [exact Hp|]. split; [reflexivity|]. intros b' H. discriminate H.
Qed.

Lemma calls_settled cs : forall p,
  Forall outside cs -> settled p ->
  settled (fst (calls cs p)) /\ snd (calls cs p) = map expected cs.
Proof.
  induction cs as [|c cs IH]; intros p Hcs Hp; simpl; [now split|].
  inversion Hcs as [|? ? Hc Hcs']; subst.
  destruct (call_settled c p Hc Hp) as (H1 & H2 & _).
  destruct (call c p) as [p1 o]. simpl in H1, H2. subst o.
  destruct (IH p1 Hcs' H1) as [H3 H4].
  destruct (calls cs p1) as [p2 os']. simpl in *. split; [exact H3|].
  now rewrite H4.
Qed.

Lemma calls_keep_instance cs : forall p r,
  Forall outside cs -> instance p = Some r -> fst (calls cs p) = p.
Proof.
  induction cs as [|c cs IH]; intros p r Hcs Hi; [reflexivity|].
  inversion Hcs as [|? ? Hc Hcs']; subst. cbn [calls].
  assert (E : call c p = (p, expected c) \/ exists o, call c p = (p, o)).
  { right. destruct c as [b|tok b]; cbn [call].
    - unfold getInstance. rewrite Hi. now eexists.
    - rewrite (constructor_outside _ _ _ Hc). now eexists. }
  destruct E as [E|[o E]]; rewrite E; specialize (IH p r Hcs' Hi);
    destruct (calls cs p) as [p2 outs]; exact IH.
Qed.

Lemma calls_from_start os_platform cs :
  Forall outside cs ->
  forall b, In (call_getInstance b) cs ->
    exists b0,
      fst (calls cs (start os_platform))
      = {| os := os_platform; instance := Some 0;
           factories := [new_factory os_platform b0] |}.
Proof.
  induction cs as [|c cs IH]; intros Hcs b Hin; [destruct Hin|].
  inversion Hcs as [|? ? Hc Hcs']; subst. cbn [calls].
  destruct c as [b1|tok b1]; cbn [call].
  - exists (match b1 with Some x => x | None => _bleDrivers end).
    assert (E : getInstance b1 (start os_platform)
                = ({| os := os_platform; instance := Some 0;
                      factories :=
                        [new_factory os_platform
                           (match b1 with Some x => x | None => _bleDrivers end)]
                   |}, Return 0)) by reflexivity.
    rewrite E.
    pose proof (calls_keep_instance cs
                  {| os := os_platform; instance := Some 0;
                     factories :=
                       [new_factory os_platform
                          (match b1 with Some x => x | None => _bleDrivers end)]
                  |} 0 Hcs' eq_refl) as H.
    clear IH. cbv beta iota.
    destruct (calls cs
                {| os := os_platform; instance := Some 0;
                   factories :=
                     [new_factory os_platform
                        (match b1 with Some x => x | None => _bleDrivers end)]
                |}) as [p2 outs].
    exact H.
  - rewrite (constructor_outside _ _ _ Hc).
    destruct Hin as [Hin|Hin]; [discriminate Hin|].
    destruct (IH Hcs' b Hin) as [b0 H]. exists b0.
    destruct (calls cs (start os_platform)) as [p2 outs]. exact H.
Qed.

(** C9. A construction with anything but the private token throws and
    constructs nothing; and in a process where the code outside the module
    calls [getInstance] and the constructor as it likes, every construction
    throws, every [getInstance] returns the same instance, and no more than
    one factory is ever constructed. The instance is there: the first
    [getInstance] constructs it, with the token, and files it as the only
    factory of the process; what [getInstance] returns always names a
    factory of the process, and the calls after the first change nothing. *)
Theorem singleton_gate :
  (forall singletonToken bleDrivers p,
     singletonToken <> _singleton ->
     constructor singletonToken bleDrivers p = (p, Throw DuplicateConstruction))
  /\ (forall os_platform cs,
        Forall outside cs ->
        snd (calls cs (start os_platform)) = map expected cs
        /\ List.length (factories (fst (calls cs (start os_platform)))) <= 1)
  /\ (forall p bleDrivers bleDrivers' r,
        snd (getInstance bleDrivers p) = Return r ->
        snd (getInstance bleDrivers' (fst (getInstance bleDrivers p)))
        = Return r)
  /\ (forall p bleDrivers bleDrivers',
        fst (getInstance bleDrivers' (fst (getInstance bleDrivers p)))
        = fst (getInstance bleDrivers p))
  /\ (forall bleDrivers p,
        constructor _singleton bleDrivers p
        = ({| os := os p; instance := instance p;
              factories := factories p ++ [new_factory (os p) bleDrivers] |},
           Return (List.length (factories p))))
  /\ (forall p bleDrivers,
        (forall r0, instance p = Some r0 -> r0 < List.length (factories p)) ->
        exists r f,
          snd (getInstance bleDrivers p) = Return r
          /\ instance (fst (getInstance bleDrivers p)) = Some r
          /\ nth_error (factories (fst (getInstance bleDrivers p))) r = Some f
          /\ (instance p = None ->
              r = List.length (factories p)
              /\ f = new_factory (os p)
                      (match bleDrivers with
                       | Some b => b
                       | None => _bleDrivers
                       end))
          /\ (forall r0, instance p = Some r0 ->
                r = r0 /\ fst (getInstance bleDrivers p) = p))
  /\ (forall os_platform cs bleDrivers,
        Forall outside cs -> In (call_getInstance bleDrivers) cs ->
        exists b0,
          fst (calls cs (start os_platform))
          = {| os := os_platform; instance := Some 0;
               factories := [new_factory os_platform b0] |}).
Proof.
  split; [exact constructor_outside|]. split; [|split; [|split; [|split;
    [|split]]]].
  - intros os_platform cs Hcs.
    destruct (calls_settled cs (start os_platform) Hcs) as [H1 H2];
      [left; now split|].
    split; [exact H2|].
    destruct H1 as [[_ ->]|[_ ->]]; simpl; lia.
  - intros p b b' r. unfold getInstance.
    destruct (instance p) as [r0|] eqn:Hi; simpl.
    + rewrite Hi. auto.
    + intros H. injection H as <-. reflexivity.
  - intros p b b'. unfold getInstance.
    destruct (instance p) as [r0|] eqn:Hi; simpl; [now rewrite Hi|reflexivity].
  - reflexivity.
  - intros p b Hwf. unfold getInstance.
    destruct (instance p) as [r0|] eqn:Hi.
    + destruct (nth_error (factories p) r0) as [f|] eqn:Hf.
      * exists r0, f. cbn [fst snd]. rewrite Hi.
        split; [reflexivity|]. split; [reflexivity|]. split; [exact Hf|].
        split; [discriminate|]. intros r1 H. injection H as <-. now split.
      * apply nth_error_None in Hf. specialize (Hwf r0 eq_refl). lia.
    + exists (List.length (factories p)),
        (new_factory (os p) (match b with Some x => x | None => _bleDrivers end)).
      cbn [constructor fst snd instance factories strict_equal _singleton
           Nat.eqb negb].
      split; [reflexivity|]. split; [reflexivity|].
      split; [now rewrite nth_error_app2, Nat.sub_diag by lia|].
      split; [now split|]. intros r1 H. discriminate H.
  - intros os_platform cs b Hcs Hin.
    exact (calls_from_start os_platform cs Hcs b Hin).
Qed.

Lemma singleton_gate_witness :
  Forall outside
    [call_new undefined _bleDrivers; call_getInstance None;
     call_new (a_symbol 1) _bleDrivers; call_getInstance (Some _bleDrivers)]
  /\ snd (calls
            [call_new undefined _bleDrivers; call_getInstance None;
             call_new (a_symbol 1) _bleDrivers;
             call_getInstance (Some _bleDrivers)] (start "linux"))
     = [Throw DuplicateConstruction; Return 0;
        Throw DuplicateConstruction; Return 0]
  /\ In (call_getInstance None)
       [call_new undefined _bleDrivers; call_getInstance None;
        call_new (a_symbol 1) _bleDrivers; call_getInstance (Some _bleDrivers)]
  /\ exists b0,
       fst (calls
              [call_new undefined _bleDrivers; call_getInstance None;
               call_new (a_symbol 1) _bleDrivers;
               call_getInstance (Some _bleDrivers)] (start "linux"))
       = {| os := "linux"; instance := Some 0;
            factories := [new_factory "linux" b0] |}.
Proof.
  assert (H : Forall outside
                [call_new undefined _bleDrivers; call_getInstance None;
                 call_new (a_symbol 1) _bleDrivers;
                 call_getInstance (Some _bleDrivers)]).
  { repeat constructor; simpl; discriminate. }
  assert (Hin : In (call_getInstance None)
                  [call_new undefined _bleDrivers; call_getInstance None;
                   call_new (a_symbol 1) _bleDrivers;
                   call_getInstance (Some _bleDrivers)])
    by (right; left; reflexivity).
  split; [exact H|].
  split; [exact (proj1 (proj1 (proj2 singleton_gate) "linux" _ H))|].
  split; [exact Hin|].
  exact (proj2 (proj2 (proj2 (proj2 (proj2 (proj2 singleton_gate)))))
           "linux" _ None H Hin).
Defined.

(** * Further properties of the factory *)

(** ** The instance id of a descriptor *)

Lemma truthy_Some v : truthy v = true -> exists id, v = Some id /\ id <> "".
Proof.
  destruct v as [id|]; simpl; [|discriminate]. intros H. exists id.
  split; [reflexivity|]. intros ->. discriminate H.
Qed.

(** [_getInstanceId] returns the serial number or the port name of the
    descriptor, never the empty string, and then leaves the state as it is.
    When the descriptor has neither, it emits one [error] event and changes
    nothing else; it then returns [undefined] if the factory has a listener
    of [error], and does not return otherwise: [emit] throws. These are the
    only cases in which it returns [undefined] or throws. *)
Theorem getInstanceId_result (adapter : RawDescriptor) (s : State) :
  (forall id, snd (_getInstanceId adapter s) = Return (Some id) ->
     id <> ""
     /\ (serialNumber adapter = Some id \/ comName adapter = Some id)
     /\ fst (_getInstanceId adapter s) = s)
  /\ (snd (_getInstanceId adapter s) = Return None <->
      truthy (serialNumber adapter) = false
      /\ truthy (comName adapter) = false
      /\ heard s = true)
  /\ ((exists message, snd (_getInstanceId adapter s) = Throw message) <->
      truthy (serialNumber adapter) = false
      /\ truthy (comName adapter) = false
      /\ heard s = false)
  /\ (truthy (serialNumber adapter) = false ->
      truthy (comName adapter) = false ->
      _getInstanceId adapter s
      = (with_emitted (emitted s ++ [ev_error (a_text MissingInstanceId)]) s,
         if heard s then Return None
         else Throw "Unhandled error. ('Failed to get adapter instanceId')"))
  /\ (forall id, serialNumber adapter = Some id -> id <> "" ->
        snd (_getInstanceId adapter s) = Return (Some id)).
Proof.
  unfold _getInstanceId.
  destruct (truthy (serialNumber adapter)) eqn:Hs.
  - destruct (truthy_Some _ Hs) as (sn & E & Hne). rewrite E. simpl.
    split; [intros id H; injection H as <-; auto|].
    split; [split; [discriminate|intros [H _]; discriminate H]|].
    split; [split; [intros [m H]; discriminate H|intros [H _]; discriminate H]|].
    split; [discriminate|]. intros id H _. exact (f_equal _ H).
  - destruct (truthy (comName adapter)) eqn:Hc.
    + destruct (truthy_Some _ Hc) as (cn & E & Hne). rewrite E. simpl.
      split; [intros id H; injection H as <-; auto|].
      split; [split; [discriminate|intros [_ [H _]]; discriminate H]|].
      split; [split; [intros [m H]; discriminate H
                     |intros [_ [H _]]; discriminate H]|].
      split; [discriminate|]. intros id H Hid. rewrite H in Hs. simpl in Hs.
      destruct (String.eqb_spec id ""); [contradiction|discriminate Hs].
    + unfold bind, emit, ret. cbn [fst snd].
      assert (Hlast : forall id, serialNumber adapter = Some id -> id <> "" ->
                False).
      { intros id H Hid. rewrite H in Hs. simpl in Hs.
        destruct (String.eqb_spec id ""); [contradiction|discriminate Hs]. }
      destruct (heard s) eqn:Hh; cbn [fst snd].
      * split; [intros id H; discriminate H|].
        split; [split; auto|].
        split; [split; [intros [m H]; discriminate H
                       |intros [_ [_ H]]; discriminate H]|].
        split; [reflexivity|]. intros id H Hid. destruct (Hlast id H Hid).
      * split; [intros id H; discriminate H|].
        split; [split; [discriminate|intros [_ [_ H]]; discriminate H]|].
        split; [split; [auto|intros _; now eexists]|].
        split; [reflexivity|]. intros id H Hid. destruct (Hlast id H Hid).
Qed.

Lemma getInstanceId_result_witness :
  snd (_getInstanceId
         {| serialNumber := Some ""; comName := Some "COM3";
            manufacturer := None |} linux)
  = Return (Some "COM3")
  /\ "COM3" <> "".
Proof.
  assert (H : snd (_getInstanceId
                     {| serialNumber := Some ""; comName := Some "COM3";
                        manufacturer := None |} linux)
              = Return (Some "COM3")) by reflexivity.
  split; [exact H|].
  exact (proj1 (proj1 (getInstanceId_result
                         {| serialNumber := Some ""; comName := Some "COM3";
                            manufacturer := None |} linux) "COM3" H)).
Defined.

(** ** The pattern and the length of an id *)

Lemma append_inj_length (p q t r : string) :
  String.length t = String.length r ->
  (p ++ t)%string = (q ++ r)%string -> p = q /\ t = r.
Proof.
  intros Hl. revert q. induction p as [|c p IH]; intros [|c' q] E; simpl in E.
  - now split.
  - exfalso. apply (f_equal String.length) in E. simpl in E.
    rewrite length_app_string in E. lia.
  - exfalso. apply (f_equal String.length) in E. simpl in E.
    rewrite length_app_string in E. lia.
  - injection E as -> E. destruct (IH q E) as [-> ->]. now split.
Qed.

Lemma Matches_length9 t d :
  String.length t = 9 -> Matches t d ->
  exists t', t = String "6" (String "8" (String d t'))
             /\ is_digit_0_3 d = true /\ digits_then_end 6 t' = true.
Proof.
  intros Hl (p & t' & E & _ & Hd & Ht).
  pose proof (digits_then_end_length _ _ Ht) as Hl'.
  destruct p as [|c p].
  - exists t'. now rewrite E.
  - exfalso. rewrite E in Hl. simpl in Hl. rewrite length_app_string in Hl.
    simpl in Hl. lia.
Qed.

(** An instance id shorter than nine characters, as the name of a port
    usually is, is not classified; and what comes before the last nine
    characters of an id does not count, as long as it holds no line
    terminator: the id is classified as its last nine characters are. *)
Theorem classification_reads_the_last_nine (p t : string) :
  (forall id, String.length (ToString id) < 9 ->
     classify id = Throw UnknownAdapterVendor)
  /\ (no_line_terminator p -> String.length t = 9 ->
      classify (Some (p ++ t)%string) = classify (Some t)).
Proof.
  split.
  - intros id Hl. apply classify_no_match. intros d (q & t' & E & _ & _ & Ht).
    rewrite E, length_app_string in Hl. simpl in Hl.
    rewrite (digits_then_end_length _ _ Ht) in Hl. lia.
  - intros Hp Hl.
    destruct (exec t) as [g|] eqn:Et.
    + destruct (exec_sound _ _ Et) as (d & -> & HM).
      destruct (Matches_length9 _ _ Hl HM) as (t' & -> & Hd & Ht).
      rewrite (classify_Matches (Some (p ++ _)%string) d).
      * now rewrite (classify_Matches (Some _) d HM).
      * exists p, t'. auto.
    + assert (Hn : forall d, ~ Matches (p ++ t)%string d).
      { intros d (q & t' & E & Hq & Hd & Ht).
        apply append_inj_length in E.
        - destruct E as [_ ->].
          assert (HM : Matches (String "6" (String "8" (String d t'))) d)
            by (exists EmptyString, t'; auto using no_line_terminator_nil).
          apply exec_complete in HM. congruence.
        - rewrite Hl. simpl. now rewrite (digits_then_end_length _ _ Ht). }
      rewrite (classify_no_match (Some (p ++ t)%string) Hn).
      unfold classify, test. simpl ToString. now rewrite Et.
Qed.

Lemma classification_reads_the_last_nine_witness :
  no_line_terminator "000"
  /\ String.length "682123456" = 9
  /\ String.length (ToString (Some "COM3")) < 9
  /\ classify (Some "COM3") = Throw UnknownAdapterVendor
  /\ classify (Some ("000" ++ "682123456")%string) = classify (Some "682123456").
Proof.
  assert (H1 : no_line_terminator "000").
  { intros c [<-|[<-|[<-|[]]]]; reflexivity. }
  assert (H2 : String.length "682123456" = 9) by reflexivity.
  assert (H3 : String.length (ToString (Some "COM3")) < 9) by (simpl; lia).
  split; [exact H1|]. split; [exact H2|]. split; [exact H3|]. split.
  - exact (proj1 (classification_reads_the_last_nine "000" "682123456")
             (Some "COM3") H3).
  - exact (proj2 (classification_reads_the_last_nine "000" "682123456") H1 H2).
Defined.

(** ** Properties that every step keeps *)

Lemma update_preserves (P : State -> Prop) :
  (forall rm x s, P s -> P (fst (add_step rm x s))) ->
  (forall k s, P s -> P (fst (remove_step k s))) ->
  (forall l s, P s -> P (with_called l s)) ->
  (forall l s, P s -> P (with_emitted l s)) ->
  forall callback result s,
    P s -> P (fst (_updateAdapterList callback result s)).
Proof.
  intros Hadd Hrem Hcall Hemit callback result s H.
  assert (Hcb : forall args s', P s' ->
            P (fst ((if is_function callback then invoke callback args
                     else ret tt) s'))).
  { intros args s' H'. destruct (is_function callback); [|exact H'].
    destruct (invoke_calls callback args s') as (l & o & ->). now apply Hcall. }
  destruct result as [err|adapters]; unfold _updateAdapterList.
  - apply bind_preserves; [now apply Hemit|]. intros _ s' H'. now apply Hcb.
  - apply bind_preserves.
    + apply (for_of_preserves P); [|exact H]. intros rm x s' H'. now apply Hadd.
    + intros rm s' H'. apply bind_preserves.
      * unfold for_each. apply (for_of_preserves P); [|exact H'].
        intros _ k s'' H''. now apply Hrem.
      * intros _ s'' H''. now apply Hcb.
Qed.

Lemma adapter_emit_preserves (P : State -> Prop) :
  (forall l s, P s -> P (with_emitted l s)) ->
  forall adapter ev payload s,
    P s -> P (fst (adapter_emit adapter ev payload s)).
Proof.
  intros Hemit adapter ev payload s H. unfold adapter_emit.
  destruct (nth_error (store s) adapter) as [a|]; [|exact H].
  unfold for_each. apply (for_of_preserves P); [|exact H].
  intros _ l s' H'. destruct l; now apply Hemit.
Qed.

Lemma run_preserves (P : State -> Prop) :
  (forall rm x s, P s -> P (fst (add_step rm x s))) ->
  (forall k s, P s -> P (fst (remove_step k s))) ->
  (forall l s, P s -> P (with_called l s)) ->
  (forall l s, P s -> P (with_emitted l s)) ->
  (forall n s, P s -> P (with_error_listeners n s)) ->
  forall ops s, P s -> P (run ops s).
Proof.
  intros Hadd Hrem Hcall Hemit Hlisten.
  induction ops as [|op ops IH]; intros s H; [exact H|].
  apply IH. destruct op; simpl.
  - now apply update_preserves.
  - now apply adapter_emit_preserves.
  - now apply Hlisten.
  - now apply Hlisten.
Qed.

(** A turn of the first loop on a classified descriptor, with the driver
    that the classification selects. *)
Lemma add_step_classified removedAdapters adapter sdVersion s :
  classify (instanceId_of adapter) = Return sdVersion ->
  exists drv,
    driver_of (this_bleDrivers s) sdVersion = Some drv
    /\ add_step removedAdapters adapter s
       = match obj_get (key_of adapter) (this_adapters s) with
         | Some _ =>
             (after_parse adapter drv s,
              Return (obj_delete (key_of adapter) removedAdapters))
         | None => (after_add adapter drv s, Return removedAdapters)
         end.
Proof.
  intros Hc.
  assert (Hx : classified adapter) by now exists sdVersion.
  pose proof (classified_key _ Hx) as Hk.
  destruct (driver_of_classified _ _ (this_bleDrivers s) Hc) as [drv Hd].
  exists drv. split; [exact Hd|]. unfold add_step, bind.
  rewrite (getInstanceId_found _ _ s Hk). unfold get_adapter at 1.
  change (ToString (Some (key_of adapter))) with (key_of adapter).
  rewrite (parse_Return _ _ _ _ Hc Hd). unfold get_adapter. simpl.
  destruct (obj_get (key_of adapter) (this_adapters s)) as [r|]; [reflexivity|].
  unfold _setUpListenersForAdapterOpenAndClose, bind, put_adapter, on, emit, ret.
  simpl. rewrite !store_update_last. reflexivity.
Qed.

Lemma store_update_nth r0 f (h : list Adapter) r :
  nth_error (store_update r0 f h) r
  = if Nat.eqb r r0 then option_map f (nth_error h r) else nth_error h r.
Proof.
  revert r0 r; induction h as [|a h IH]; intros [|r0] [|r]; simpl;
    try reflexivity.
  - now destruct (Nat.eqb r r0).
  - apply IH.
Qed.

Lemma nth_error_grow (h : list Adapter) a r b :
  nth_error h r = Some a -> nth_error (h ++ [b]) r = Some a.
Proof.
  intros H. rewrite nth_error_app1; [exact H|].
  apply nth_error_Some. congruence.
Qed.

Lemma nth_error_last (h : list Adapter) b :
  nth_error (h ++ [b]) (List.length h) = Some b.
Proof. now rewrite nth_error_app2, Nat.sub_diag by lia. Qed.

(** ** Filed adapters: id, driver and listeners *)

Lemma add_step_Registered removedAdapters adapter s :
  Registered s -> Registered (fst (add_step removedAdapters adapter s)).
Proof.
  intros HR.
  destruct (classify (instanceId_of adapter)) as [sd|m] eqn:Hc.
  - assert (Hx : classified adapter) by now exists sd.
    destruct (add_step_classified removedAdapters adapter sd s Hc)
      as (drv & Hd & E).
    rewrite E.
    destruct (obj_get (key_of adapter) (this_adapters s)) as [r0|] eqn:Hget;
      cbn [fst]; intros k r Hk.
    + destruct (HR k r Hk) as (a & sd' & Ha & H).
      exists a, sd'. split; [now apply nth_error_grow|exact H].
    + cbn [this_adapters after_add] in Hk. rewrite obj_get_set in Hk.
      destruct (String.eqb_spec k (key_of adapter)) as [->|Hne].
      * injection Hk as <-.
        exists (listening (fresh_adapter adapter drv s)), sd.
        cbn [store after_add this_bleDrivers].
        split; [apply nth_error_last|].
        rewrite <- (classified_key _ Hx). repeat split; auto.
      * destruct (HR k r Hk) as (a & sd' & Ha & H).
        exists a, sd'. split; [now apply nth_error_grow|exact H].
  - rewrite (add_step_unclassified removedAdapters adapter m s Hc). exact HR.
Qed.

Lemma remove_step_Registered adapterId s :
  Registered s -> Registered (fst (remove_step adapterId s)).
Proof.
  intros HR.
  destruct (obj_get adapterId (this_adapters s)) as [r0|] eqn:Hget.
  - rewrite (remove_step_found adapterId r0 s Hget). cbn [fst].
    intros k r Hk. cbn [this_adapters after_remove] in Hk.
    rewrite obj_get_delete in Hk.
    destruct (String.eqb_spec k adapterId) as [->|Hne]; [discriminate Hk|].
    destruct (HR k r Hk) as (a & sd & Ha & Hid & H).
    destruct (HR adapterId r0 Hget) as (a0 & _ & Ha0 & Hid0 & _).
    exists a, sd. cbn [store after_remove this_bleDrivers].
    split; [|split; [exact Hid|exact H]].
    rewrite store_update_nth.
    destruct (Nat.eqb_spec r r0) as [->|_]; [|exact Ha]. congruence.
  - destruct (remove_step_missing adapterId s Hget) as [m E]. now rewrite E.
Qed.

Lemma run_Registered ops os_platform bleDrivers :
  Registered (run ops (new_factory os_platform bleDrivers))
  /\ this_bleDrivers (run ops (new_factory os_platform bleDrivers)) = bleDrivers.
Proof.
  apply (run_preserves (fun s => Registered s /\ this_bleDrivers s = bleDrivers)).
  - intros rm x s [H1 H2]. split; [now apply add_step_Registered|].
    destruct (classify (instanceId_of x)) as [sd|m] eqn:Hc.
    + destruct (add_step_classified rm x sd s Hc) as (drv & _ & E). rewrite E.
      now destruct (obj_get (key_of x) (this_adapters s)).
    + now rewrite (add_step_unclassified rm x m s Hc).
  - intros k s [H1 H2]. split; [now apply remove_step_Registered|].
    destruct (obj_get k (this_adapters s)) as [r0|] eqn:Hget.
    + now rewrite (remove_step_found k r0 s Hget).
    + destruct (remove_step_missing k s Hget) as [m E]. now rewrite E.
  - intros l s H. exact H.
  - intros l s H. exact H.
  - intros n s H. exact H.
  - split; [intros k r H; discriminate H|reflexivity].
Qed.

(** Whatever has happened to a factory, an adapter in its table is filed
    under an instance id that matches the Segger pattern, carries that id,
    and is bound to the driver that the classification of the id selects
    among the drivers the factory was constructed with. *)
Theorem filed_adapters_are_bound (os_platform : string)
    (bleDrivers : BleDrivers) (ops : list Op) (k : string) (r : nat) :
  let s := run ops (new_factory os_platform bleDrivers) in
  obj_get k (this_adapters s) = Some r ->
  exists a d,
    nth_error (store s) r = Some a
    /\ adapter_instanceId a = Some k
    /\ Matches k d
    /\ adapter_driver a
       = (if Ascii.eqb d "0" || Ascii.eqb d "1" then v2 bleDrivers
          else v3 bleDrivers).
Proof.
  intros s Hk. destruct (run_Registered ops os_platform bleDrivers) as [HR Hb].
  fold s in HR, Hb.
  destruct (HR k r Hk) as (a & sd & Ha & Hid & Hc & Hd & _).
  rewrite Hb in Hd. unfold classify, test in Hc. simpl ToString in Hc.
  destruct (exec k) as [g|] eqn:Ee; [|discriminate Hc].
  destruct (exec_sound _ _ Ee) as (d & -> & HM).
  exists a, d. split; [exact Ha|]. split; [exact Hid|]. split; [exact HM|].
  destruct HM as (_ & _ & _ & _ & Hdig & _).
  destruct (is_digit_0_3_cases _ Hdig) as [-> | [-> | [-> | ->]]];
    cbv in Hc; injection Hc as <-; cbn in Hd; now injection Hd.
Qed.

Lemma filed_adapters_are_bound_witness :
  let s :=
    run [op_update not_a_function (enum_adapters [dk "000683000001"])]
      (new_factory "linux" _bleDrivers) in
  obj_get "000683000001" (this_adapters s) = Some 0
  /\ exists a d,
       nth_error (store s) 0 = Some a
       /\ adapter_instanceId a = Some "000683000001"
       /\ Matches "000683000001" d
       /\ adapter_driver a
          = (if Ascii.eqb d "0" || Ascii.eqb d "1" then v2 _bleDrivers
             else v3 _bleDrivers).
Proof.
  intros s.
  assert (H : obj_get "000683000001" (this_adapters s) = Some 0) by reflexivity.
  split; [exact H|].
  exact (filed_adapters_are_bound "linux" _bleDrivers
           [op_update not_a_function (enum_adapters [dk "000683000001"])]
           "000683000001" 0 H).
Defined.

(** Whatever has happened to a factory, an [opened] notification of an
    adapter in its table comes out once as [adapterOpened] and a [closed]
    one once as [adapterClosed], with the payload of the notification, and
    nothing else changes: passes do not pile up listeners. *)
Theorem filed_adapters_are_relayed_once (os_platform : string)
    (bleDrivers : BleDrivers) (ops : list Op) (k : string) (r payload : nat) :
  let s := run ops (new_factory os_platform bleDrivers) in
  obj_get k (this_adapters s) = Some r ->
  adapter_emit r opened payload s
  = (with_emitted (emitted s ++ [ev_adapterOpened payload]) s, Return tt)
  /\ adapter_emit r closed payload s
     = (with_emitted (emitted s ++ [ev_adapterClosed payload]) s, Return tt).
Proof.
  intros s Hk. destruct (run_Registered ops os_platform bleDrivers) as [HR _].
  fold s in HR.
  destruct (HR k r Hk) as (a & sd & Ha & _ & _ & _ & Ho & Hc).
  unfold adapter_emit. rewrite Ha. simpl. rewrite Ho, Hc. split; reflexivity.
Qed.

Lemma filed_adapters_are_relayed_once_witness :
  let s :=
    run [op_update not_a_function (enum_adapters [dk "680123456"]);
         op_update not_a_function (enum_adapters [dk "680123456"]);
         op_update not_a_function (enum_adapters [dk "680123456"])]
      (new_factory "linux" _bleDrivers) in
  obj_get "680123456" (this_adapters s) = Some 0
  /\ adapter_emit 0 opened 0 s
     = (with_emitted (emitted s ++ [ev_adapterOpened 0]) s, Return tt).
Proof.
  intros s.
  assert (H : obj_get "680123456" (this_adapters s) = Some 0) by reflexivity.
  split; [exact H|].
  exact (proj1 (filed_adapters_are_relayed_once "linux" _bleDrivers
                  [op_update not_a_function (enum_adapters [dk "680123456"]);
                   op_update not_a_function (enum_adapters [dk "680123456"]);
                   op_update not_a_function (enum_adapters [dk "680123456"])]
                  "680123456" 0 0 H)).
Defined.

(** ** What an adapter is constructed with *)

Lemma identity_set_listeners ev ls a :
  identity (set_listeners ev ls a) = identity a.
Proof. now destruct ev. Qed.

Lemma identities_kept_refl s : identities_kept s s.
Proof. intros r a H. now exists a. Qed.

Lemma identities_kept_grow s0 s h b :
  identities_kept s0 s -> store s ++ [b] = h ->
  forall r a, nth_error (store s0) r = Some a ->
    exists a', nth_error h r = Some a' /\ identity a' = identity a.
Proof.
  intros H <- r a Ha. destruct (H r a Ha) as (a' & Ha' & E).
  exists a'. split; [now apply nth_error_grow|exact E].
Qed.

Lemma add_step_identities s0 removedAdapters adapter s :
  identities_kept s0 s ->
  identities_kept s0 (fst (add_step removedAdapters adapter s)).
Proof.
  intros H.
  destruct (classify (instanceId_of adapter)) as [sd|m] eqn:Hc.
  - destruct (add_step_classified removedAdapters adapter sd s Hc)
      as (drv & _ & E).
    rewrite E. destruct (obj_get (key_of adapter) (this_adapters s));
      cbn [fst]; unfold identities_kept;
      (eapply (identities_kept_grow s0 s); [exact H|reflexivity]).
  - rewrite (add_step_unclassified removedAdapters adapter m s Hc). exact H.
Qed.

Lemma remove_step_identities s0 adapterId s :
  identities_kept s0 s -> identities_kept s0 (fst (remove_step adapterId s)).
Proof.
  intros H.
  destruct (obj_get adapterId (this_adapters s)) as [r0|] eqn:Hget.
  - rewrite (remove_step_found adapterId r0 s Hget). cbn [fst].
    intros r a Ha. destruct (H r a Ha) as (a' & Ha' & E).
    cbn [store after_remove]. rewrite store_update_nth, Ha'.
    destruct (Nat.eqb r r0); [|now exists a'].
    exists (set_listeners opened [] a'). split; [reflexivity|].
    now rewrite identity_set_listeners.
  - destruct (remove_step_missing adapterId s Hget) as [m E]. now rewrite E.
Qed.

(** Whatever happens to a factory (passes that complete or stop, failed
    enumerations, notifications), an adapter object stays in the store at
    its reference with the driver, native adapter, instance id, port name,
    serial number and advisory message of its construction: only its
    listeners may change. *)
Theorem adapters_keep_their_identity (ops : list Op) (s : State)
    (r : nat) (a : Adapter) :
  nth_error (store s) r = Some a ->
  exists a',
    nth_error (store (run ops s)) r = Some a'
    /\ adapter_driver a' = adapter_driver a
    /\ adapter_addOn a' = adapter_addOn a
    /\ adapter_instanceId a' = adapter_instanceId a
    /\ adapter_comName a' = adapter_comName a
    /\ adapter_serialNumber a' = adapter_serialNumber a
    /\ adapter_notSupportedMessage a' = adapter_notSupportedMessage a.
Proof.
  intros Ha.
  assert (H : identities_kept s (run ops s)).
  { apply (run_preserves (identities_kept s)).
    - intros rm x s'. apply add_step_identities.
    - intros k s'. apply remove_step_identities.
    - intros l s' H. exact H.
    - intros l s' H. exact H.
    - intros n s' H. exact H.
    - apply identities_kept_refl. }
  destruct (H r a Ha) as (a' & Ha' & E). exists a'. split; [exact Ha'|].
  unfold identity in E. injection E as -> -> -> -> -> ->. repeat split.
Qed.

Lemma adapters_keep_their_identity_witness :
  let s :=
    run [op_update not_a_function (enum_adapters [dk "680123456"])] linux in
  (exists a, nth_error (store s) 0 = Some a)
  /\ exists a',
       nth_error
         (store (run [op_update not_a_function (enum_adapters [])] s)) 0
       = Some a'
       /\ adapter_instanceId a' = Some "680123456".
Proof.
  intros s.
  assert (H : nth_error (store s) 0
              = Some (listening (fresh_adapter (dk "680123456") _bleDriverV2
                                   linux))) by reflexivity.
  split; [eexists; exact H|].
  destruct (adapters_keep_their_identity
              [op_update not_a_function (enum_adapters [])] s 0 _ H)
    as (a' & Ha' & _ & _ & Hid & _).
  exists a'. split; [exact Ha'|exact Hid].
Defined.

(** ** The advisory message *)

Lemma Forall_store_update (P : Adapter -> Prop) r f h :
  (forall a, P a -> P (f a)) -> Forall P h -> Forall P (store_update r f h).
Proof.
  intros Hf. revert r. induction h as [|a h IH]; intros [|r] H; simpl;
    try exact H; inversion H; subst; constructor; auto.
Qed.

Lemma no_message_off_darwin os_platform adapter :
  os_platform <> "darwin" -> notSupportedMessage_of os_platform adapter = None.
Proof.
  intros H. unfold notSupportedMessage_of.
  destruct (String.eqb_spec os_platform "darwin"); [contradiction|reflexivity].
Qed.

(** On a platform other than [darwin] no adapter that the factory constructs
    ever carries an advisory message, whatever the manufacturers that the
    enumerations report; on [darwin] the adapter that a turn of the loop
    files for a descriptor of manufacturer [MBED] or [SEGGER] carries the
    message of that manufacturer, and the one of any other carries none. *)
Theorem advisory_only_on_darwin (os_platform : string) (bleDrivers : BleDrivers)
    (ops : list Op) :
  (os_platform <> "darwin" ->
   forall a, In a (store (run ops (new_factory os_platform bleDrivers))) ->
             adapter_notSupportedMessage a = None)
  /\ (forall s removedAdapters adapter,
        platform s = "darwin" -> classified adapter ->
        obj_get (key_of adapter) (this_adapters s) = None ->
        exists a,
          nth_error (store (fst (add_step removedAdapters adapter s)))
            (List.length (store s)) = Some a
          /\ obj_get (key_of adapter)
               (this_adapters (fst (add_step removedAdapters adapter s)))
             = Some (List.length (store s))
          /\ adapter_notSupportedMessage a
             = (if is_string (manufacturer adapter) "MBED"
                then Some mbed_message
                else if is_string (manufacturer adapter) "SEGGER"
                     then Some segger_message
                     else None)).
Proof.
  split.
  - intros Hos.
    assert (H : platform (run ops (new_factory os_platform bleDrivers))
                = os_platform
                /\ no_advisory (run ops (new_factory os_platform bleDrivers))).
    { apply (run_preserves
               (fun s => platform s = os_platform /\ no_advisory s)).
      - intros rm x s [Hp Hn].
        destruct (classify (instanceId_of x)) as [sd|m] eqn:Hc.
        + destruct (add_step_classified rm x sd s Hc) as (drv & _ & E).
          rewrite E. unfold no_advisory.
          destruct (obj_get (key_of x) (this_adapters s)); cbn [fst];
            (split; [exact Hp|]); cbn [store after_parse after_add with_store];
            apply Forall_app; (split; [exact Hn|]); constructor;
            try constructor; cbn; rewrite Hp;
            now apply no_message_off_darwin.
        + rewrite (add_step_unclassified rm x m s Hc). now split.
      - intros k s [Hp Hn].
        destruct (obj_get k (this_adapters s)) as [r0|] eqn:Hget.
        + rewrite (remove_step_found k r0 s Hget). cbn [fst].
          split; [exact Hp|]. unfold no_advisory. cbn [store after_remove].
          apply Forall_store_update; [|exact Hn]. intros a Ha. exact Ha.
        + destruct (remove_step_missing k s Hget) as [m E]. rewrite E.
          now split.
      - intros l s H. exact H.
      - intros l s H. exact H.
      - intros n s H. exact H.
      - split; [reflexivity|constructor]. }
    destruct H as [_ H]. intros a Ha.
    exact (proj1 (Forall_forall _ _) H a Ha).
  - intros s rm x Hp Hx Hget. destruct Hx as [sd Hc].
    destruct (add_step_classified rm x sd s Hc) as (drv & _ & E).
    rewrite E, Hget. cbn [fst store after_add this_adapters].
    exists (listening (fresh_adapter x drv s)).
    split; [apply nth_error_last|]. split.
    + rewrite obj_get_set. now rewrite String.eqb_refl.
    + cbn. rewrite Hp. unfold notSupportedMessage_of. reflexivity.
Qed.

Lemma advisory_only_on_darwin_witness :
  "win32" <> "darwin"
  /\ forall a,
       In a (store (run [op_update not_a_function
                           (enum_adapters
                              [{| serialNumber := Some "680123456";
                                  comName := Some "COM3";
                                  manufacturer := Some "SEGGER" |}])]
                      (new_factory "win32" _bleDrivers))) ->
       adapter_notSupportedMessage a = None.
Proof.
  assert (H : "win32" <> "darwin") by discriminate.
  split; [exact H|].
  exact (proj1 (advisory_only_on_darwin "win32" _bleDrivers _) H).
Defined.

(** ** The loops, exactly *)

Lemma table_after_add_kept adapters : forall t n k r,
  obj_get k t = Some r -> obj_get k (table_after_add t n adapters) = Some r.
Proof.
  induction adapters as [|x xs IH]; intros t n k r H; simpl; [exact H|].
  destruct (obj_get (key_of x) t) as [r0|] eqn:Hget; [now apply IH|].
  apply IH. rewrite obj_get_set.
  destruct (String.eqb_spec k (key_of x)) as [->|_]; [congruence|exact H].
Qed.

Lemma added_refs_bounds adapters : forall t n,
  Forall (fun r => n <= r) (added_refs t n adapters)
  /\ NoDup (added_refs t n adapters).
Proof.
  induction adapters as [|x xs IH]; intros t n; simpl;
    [split; constructor|].
  assert (Hle : forall t', Forall (fun r => n <= r) (added_refs t' (S n) xs)).
  { intros t'. eapply Forall_impl; [|apply (IH t' (S n))].
    intros r Hr. simpl in Hr. lia. }
  destruct (obj_get (key_of x) t).
  - split; [apply Hle|apply IH].
  - split; [constructor; [lia|apply Hle]|].
    constructor; [|apply IH]. intros Hin.
    destruct (IH (obj_set (key_of x) n t) (S n)) as [HF _].
    pose proof (proj1 (Forall_forall _ _) HF n Hin) as Hn. simpl in Hn. lia.
Qed.

Lemma existsb_eqb_In k known :
  existsb (String.eqb k) known = true <-> In k known.
Proof.
  rewrite existsb_exists. split.
  - intros (k' & Hin & E). apply String.eqb_eq in E. now subst.
  - intros H. exists k. split; [exact H|apply String.eqb_refl].
Qed.

Lemma new_keys_spec ks : forall known,
  NoDup (new_keys known ks)
  /\ forall k, In k (new_keys known ks) <-> In k ks /\ ~ In k known.
Proof.
  induction ks as [|k0 ks IH]; intros known; simpl.
  - split; [constructor|]. intros k. tauto.
  - destruct (existsb (String.eqb k0) known) eqn:E.
    + apply existsb_eqb_In in E. destruct (IH known) as [Hnd Hin].
      split; [exact Hnd|]. intros k. rewrite Hin.
      split; [tauto|]. intros [[<-|H] Hn]; [contradiction|tauto].
    + assert (Hn0 : ~ In k0 known).
      { intros H. apply existsb_eqb_In in H. congruence. }
      destruct (IH (k0 :: known)) as [Hnd Hin]. split.
      * constructor; [|exact Hnd]. intros H. apply Hin in H.
        destruct H as [_ H]. apply H. now left.
      * intros k. simpl. rewrite Hin. simpl.
        destruct (string_dec k0 k) as [->|Hne]; [tauto|]. tauto.
Qed.

Lemma added_refs_filed adapters : forall known t n,
  (forall k, In k known <-> In k (keys t)) ->
  Forall2 (fun k r => obj_get k (table_after_add t n adapters) = Some r)
    (new_keys known (map key_of adapters)) (added_refs t n adapters).
Proof.
  induction adapters as [|x xs IH]; intros known t n Hk; simpl; [constructor|].
  destruct (obj_get (key_of x) t) as [r0|] eqn:Hget.
  - assert (E : existsb (String.eqb (key_of x)) known = true).
    { apply existsb_eqb_In, Hk, obj_get_Some. eauto. }
    rewrite E. now apply IH.
  - assert (E : existsb (String.eqb (key_of x)) known = false).
    { destruct (existsb (String.eqb (key_of x)) known) eqn:E'; [|reflexivity].
      apply existsb_eqb_In, Hk in E'. now apply obj_get_None in Hget. }
    rewrite E. constructor.
    + apply table_after_add_kept. rewrite obj_get_set.
      now rewrite String.eqb_refl.
    + apply IH. intros k. simpl. rewrite keys_set, Hget, in_app_iff, Hk.
      simpl. tauto.
Qed.

Lemma add_loop_exact adapters : forall removedAdapters s,
  Forall classified adapters ->
  exists s' removedAdapters',
    for_of add_step adapters removedAdapters s = (s', Return removedAdapters')
    /\ this_adapters s'
       = table_after_add (this_adapters s) (List.length (store s)) adapters
    /\ emitted s'
       = emitted s
         ++ map ev_added
              (added_refs (this_adapters s) (List.length (store s)) adapters)
    /\ called s' = called s.
Proof.
  induction adapters as [|x xs IH]; intros rm s Hall.
  - exists s, rm. simpl. now rewrite List.app_nil_r.
  - inversion Hall as [|? ? [sd Hc] Hxs]; subst.
    destruct (add_step_classified rm x sd s Hc) as (drv & _ & E).
    simpl. unfold bind. rewrite E.
    destruct (obj_get (key_of x) (this_adapters s)) as [r0|] eqn:Hget.
    + destruct (IH (obj_delete (key_of x) rm) (after_parse x drv s) Hxs)
        as (s' & rm' & E' & Ht & He & Hc').
      exists s', rm'. split; [exact E'|].
      cbn [this_adapters store emitted called after_parse with_store with_addOns]
        in Ht, He, Hc'.
      rewrite length_app in Ht, He. simpl in Ht, He.
      rewrite Nat.add_1_r in Ht, He. auto.
    + destruct (IH rm (after_add x drv s) Hxs)
        as (s' & rm' & E' & Ht & He & Hc').
      exists s', rm'. split; [exact E'|].
      cbn [this_adapters store emitted called after_add] in Ht, He, Hc'.
      rewrite length_app in Ht, He. simpl in Ht, He.
      rewrite Nat.add_1_r in Ht, He. rewrite <- app_assoc in He. auto.
Qed.

Lemma removed_refs_delete k0 t ks :
  ~ In k0 ks -> removed_refs (obj_delete k0 t) ks = removed_refs t ks.
Proof.
  induction ks as [|k ks IH]; intros H; simpl; [reflexivity|].
  rewrite obj_get_delete, IH by (intros H'; apply H; now right).
  destruct (String.eqb_spec k k0) as [->|_]; [|reflexivity].
  destruct H. now left.
Qed.

Lemma remove_loop_exact ks : forall s,
  NoDup ks -> (forall k, In k ks -> In k (keys (this_adapters s))) ->
  exists s',
    for_each remove_step ks s = (s', Return tt)
    /\ emitted s'
       = emitted s ++ map ev_removed (removed_refs (this_adapters s) ks)
    /\ called s' = called s.
Proof.
  unfold for_each.
  induction ks as [|k0 ks IH]; intros s Hnd Hin.
  - exists s. simpl. now rewrite List.app_nil_r.
  - inversion Hnd as [|? ? Hk0 Hnd']; subst.
    destruct (proj1 (obj_get_Some _ _) (Hin k0 (or_introl eq_refl))) as [r Hget].
    destruct (IH (after_remove k0 r s) Hnd') as (s' & E & He & Hc).
    { intros k Hk. simpl. apply keys_delete. split; [|apply Hin; now right].
      intros ->. contradiction. }
    exists s'. simpl. unfold bind. rewrite (remove_step_found k0 r s Hget).
    split; [exact E|]. split; [|exact Hc].
    rewrite He. cbn [emitted this_adapters after_remove].
    rewrite (removed_refs_delete _ _ _ Hk0), Hget, <- app_assoc. reflexivity.
Qed.

Lemma removed_refs_Forall2 (t t' : JsObject nat) ks :
  (forall k, In k ks -> exists r, obj_get k t = Some r /\ obj_get k t' = Some r) ->
  Forall2 (fun k r => obj_get k t = Some r) ks (removed_refs t' ks).
Proof.
  induction ks as [|k ks IH]; intros H; simpl; [constructor|].
  destruct (H k (or_introl eq_refl)) as (r & Hr & Hr'). rewrite Hr'. simpl.
  constructor; [exact Hr|]. apply IH. intros k' Hk'. apply H. now right.
Qed.

Lemma Forall2_left_In {A B} (P Q : A -> B -> Prop) l l' :
  Forall2 P l l' -> (forall x y, In x l -> P x y -> Q x y) -> Forall2 Q l l'.
Proof.
  induction 1 as [|x y l l' Hxy H IH]; intros HPQ; constructor.
  - apply HPQ; [now left|exact Hxy].
  - apply IH. intros x' y' Hin. apply HPQ. now right.
Qed.

Lemma invoke_with_adapters_exact callback s :
  is_function callback = true ->
  invoke callback with_adapters s
  = (with_called (called s ++ call_of callback with_adapters) s, Return tt).
Proof.
  unfold call_of.
  induction callback as [|f|callback IH]; simpl; intros H;
    [discriminate H | reflexivity |].
  destruct callback as [|f|callback']; simpl in *.
  - unfold ret. now rewrite with_called_same.
  - reflexivity.
  - now apply IH.
Qed.

(** ** A pass that completes *)

Lemma add_loop_locals_NoDup adapters : forall removedAdapters s s' removedAdapters',
  for_of add_step adapters removedAdapters s = (s', Return removedAdapters') ->
  NoDup (keys removedAdapters) -> NoDup (keys removedAdapters').
Proof.
  induction adapters as [|x xs IH]; intros rm s s' rm' E H; simpl in E.
  - injection E as _ <-. exact H.
  - unfold bind in E.
    destruct (classify (instanceId_of x)) as [sd|m] eqn:Hc.
    + destruct (add_step_classified rm x sd s Hc) as (drv & _ & Ex).
      rewrite Ex in E.
      destruct (obj_get (key_of x) (this_adapters s)).
      * eapply IH; [exact E|]. now apply NoDup_keys_delete.
      * eapply IH; [exact E|exact H].
    + rewrite (add_step_unclassified rm x m s Hc) in E. discriminate E.
Qed.

(** The parts of a pass over classified descriptors. *)
Lemma update_complete_exact callback adapters s :
  Forall classified adapters ->
  exists sa (removedAdapters : JsObject nat) sr,
    _updateAdapterList callback (enum_adapters adapters) s
    = (with_called (called s ++ call_of callback with_adapters) sr, Return tt)
    /\ this_adapters sa
       = table_after_add (this_adapters s) (List.length (store s)) adapters
    /\ NoDup (own_keys removedAdapters)
    /\ (forall k, In k (own_keys removedAdapters) <->
                  In k (keys (this_adapters s)) /\ ~ In k (map key_of adapters))
    /\ (forall k, obj_get k (this_adapters sr)
                  = if in_dec string_dec k (own_keys removedAdapters) then None
                    else obj_get k (this_adapters sa))
    /\ emitted sr
       = emitted s
         ++ map ev_added
              (added_refs (this_adapters s) (List.length (store s)) adapters)
         ++ map ev_removed
              (removed_refs (this_adapters sa) (own_keys removedAdapters)).
Proof.
  intros Hall.
  destruct (update_complete callback adapters s Hall)
    as (sa & rm & sr & l & Ea & Er & E & Hsa & Hrm & Hsr & _).
  destruct (add_loop_exact adapters (obj_assign [] (this_adapters s)) s Hall)
    as (sa' & rm' & Ea' & Ht & He & Hc).
  rewrite Ea in Ea'. injection Ea' as <- <-.
  assert (Hnd : NoDup (own_keys rm)).
  { apply own_keys_NoDup.
    apply (add_loop_locals_NoDup adapters _ s sa rm Ea).
    apply obj_assign_empty_NoDup. }
  destruct (remove_loop_exact (own_keys rm) sa Hnd)
    as (sr' & Er' & He' & Hc').
  { intros k Hk. apply Hrm in Hk. apply Hsa. tauto. }
  rewrite Er in Er'. injection Er' as <-.
  exists sa, rm, sr.
  split; [|split; [exact Ht|split; [exact Hnd|split; [exact Hrm|split;
    [exact Hsr|]]]]].
  - unfold _updateAdapterList, bind. rewrite Ea, Er.
    rewrite <- Hc, <- Hc'.
    destruct (is_function callback) eqn:Hf.
    + now apply invoke_with_adapters_exact.
    + destruct callback; try discriminate Hf.
      unfold ret, call_of. simpl. now rewrite with_called_same.
  - now rewrite He', He, <- app_assoc.
Qed.

(** After a pass over descriptors that are all classified, whatever the
    table held before: the pass has returned; the table holds exactly the
    instance ids of the descriptors; and the callback has been called once,
    with the table, if it is a function of the caller (given directly or to
    [getAdapters]), and nothing has been called otherwise. *)
Theorem completed_pass_table (s : State) (callback : Callback)
    (adapters : list RawDescriptor) :
  Forall classified adapters ->
  let result := _updateAdapterList callback (enum_adapters adapters) s in
  snd result = Return tt
  /\ (forall k, In k (keys (this_adapters (fst result))) <->
                In k (map key_of adapters))
  /\ called (fst result)
     = called s ++ match callee callback with
                   | Some f => [(f, with_adapters)]
                   | None => []
                   end.
Proof.
  intros Hall result. subst result.
  destruct (update_complete_exact callback adapters s Hall)
    as (sa & rm & sr & E & Ht & Hnd & Hrm & Hsr & He).
  destruct (update_complete callback adapters s Hall)
    as (sa' & rm' & sr' & l & Ea & _ & _ & Hsa & _).
  rewrite E. cbn [fst snd this_adapters called with_called].
  split; [reflexivity|]. split; [|reflexivity].
  assert (Hkeys : forall k, In k (keys (this_adapters sa)) <->
                    In k (keys (this_adapters s)) \/ In k (map key_of adapters)).
  { destruct (add_loop_Return adapters (obj_assign [] (this_adapters s)) s Hall)
      as (s2 & rm2 & E2 & Hk & _).
    destruct (add_loop_exact adapters (obj_assign [] (this_adapters s)) s Hall)
      as (s3 & rm3 & E3 & Ht3 & _).
    rewrite E2 in E3. injection E3 as <- <-.
    intros k. rewrite <- Hk. rewrite !obj_get_Some, Ht, Ht3. tauto. }
  intros k. rewrite obj_get_Some, Hsr.
  destruct (in_dec string_dec k (own_keys rm)) as [Hi|Hi].
  - apply Hrm in Hi. split; [intros [v Hv]; discriminate Hv | tauto].
  - rewrite <- obj_get_Some, Hkeys. rewrite Hrm in Hi.
    destruct (in_dec string_dec k (map key_of adapters)); tauto.
Qed.

Lemma completed_pass_table_witness :
  Forall classified [dk "680123456"; dk "000682123456"]
  /\ called
       (fst (getAdapters (function 7)
               (enum_adapters [dk "680123456"; dk "000682123456"]) linux))
     = [(7, with_adapters)].
Proof.
  assert (H : Forall classified [dk "680123456"; dk "000682123456"]).
  { constructor; [now apply dk_classified with "v2"|].
    constructor; [now apply dk_classified with "v3"|constructor]. }
  split; [exact H|].
  exact (proj2 (proj2 (completed_pass_table linux
                         (getAdapters_arrow (function 7))
                         [dk "680123456"; dk "000682123456"] H))).
Defined.

(** The events of a pass over descriptors that are all classified: first
    one [added] for each instance id of the batch that the table did not
    hold, in the order of the batch and once for an id that the batch
    repeats, with the adapter that the table then holds for it, which is a
    newly constructed one; then one [removed] for each id of the table that
    the batch does not hold, with the adapter that the table held for it;
    and no other event. *)
Theorem completed_pass_events (s : State) (callback : Callback)
    (adapters : list RawDescriptor) :
  Forall classified adapters ->
  let t := this_adapters s in
  let result := _updateAdapterList callback (enum_adapters adapters) s in
  let t' := this_adapters (fst result) in
  exists added removed_keys removed,
    emitted (fst result)
    = emitted s ++ map ev_added added ++ map ev_removed removed
    /\ Forall2 (fun k r => obj_get k t' = Some r)
         (new_keys (keys t) (map key_of adapters)) added
    /\ NoDup (new_keys (keys t) (map key_of adapters))
    /\ (forall k, In k (new_keys (keys t) (map key_of adapters)) <->
                  In k (map key_of adapters) /\ ~ In k (keys t))
    /\ Forall (fun r => List.length (store s) <= r) added
    /\ NoDup added
    /\ Forall2 (fun k r => obj_get k t = Some r) removed_keys removed
    /\ NoDup removed_keys
    /\ (forall k, In k removed_keys <->
                  In k (keys t) /\ ~ In k (map key_of adapters)).
Proof.
  intros Hall t result t'. subst t result t'.
  destruct (update_complete_exact callback adapters s Hall)
    as (sa & rm & sr & E & Ht & Hnd & Hrm & Hsr & He).
  rewrite E. cbn [fst this_adapters emitted with_called].
  destruct (new_keys_spec (map key_of adapters) (keys (this_adapters s)))
    as [Hnk Hink].
  destruct (added_refs_bounds adapters (this_adapters s) (List.length (store s)))
    as [Hge Hnda].
  exists (added_refs (this_adapters s) (List.length (store s)) adapters),
    (own_keys rm), (removed_refs (this_adapters sa) (own_keys rm)).
  split; [exact He|]. split; [|split; [exact Hnk|split; [exact Hink|split;
    [exact Hge|split; [exact Hnda|split; [|split; [exact Hnd|exact Hrm]]]]]]].
  - eapply Forall2_left_In.
    + apply (added_refs_filed adapters (keys (this_adapters s))
               (this_adapters s) (List.length (store s))).
      intros k. tauto.
    + intros k r Hk Hr. cbn beta in Hr. rewrite Hsr.
      destruct (in_dec string_dec k (own_keys rm)) as [Hi|_].
      * apply Hrm in Hi. apply Hink in Hk. tauto.
      * now rewrite Ht.
  - apply removed_refs_Forall2. intros k Hk. apply Hrm in Hk.
    destruct Hk as [Hk _]. apply obj_get_Some in Hk. destruct Hk as [r Hr].
    exists r. split; [exact Hr|]. rewrite Ht. now apply table_after_add_kept.
Qed.

Lemma completed_pass_events_witness :
  Forall classified [dk "681000001"; dk "681000001"]
  /\ exists added (removed_keys : list string) removed,
       emitted
         (fst (_updateAdapterList not_a_function
                 (enum_adapters [dk "681000001"; dk "681000001"])
                 (run [op_update not_a_function
                         (enum_adapters [dk "680123456"])] linux)))
       = [ev_added 0] ++ map ev_added added ++ map ev_removed removed
       /\ NoDup added /\ NoDup removed_keys.
Proof.
  assert (H : Forall classified [dk "681000001"; dk "681000001"]).
  { constructor; [now apply dk_classified with "v2"|].
    constructor; [now apply dk_classified with "v2"|constructor]. }
  split; [exact H|].
  destruct (completed_pass_events
              (run [op_update not_a_function (enum_adapters [dk "680123456"])]
                 linux)
              not_a_function [dk "681000001"; dk "681000001"] H)
    as (added & removed_keys & removed & He & _ & _ & _ & _ & Hnd & _ & Hnd' & _).
  exists added, removed_keys, removed. split; [exact He|]. now split.
Defined.

(** ** Passes without a callback *)

(** A tick of the timer calls nothing, whatever the enumeration reports.
    When the enumeration fails, the [error] event is emitted and nothing
    else changes; on a factory that listens to its errors the tick then
    returns, and [getAdapters] with no function as callback throws a
    [TypeError]; on a factory that does not, both throw the error of the
    enumeration, from [emit]. [getAdapters] with no function as callback
    returns without a call when the pass completes. *)
Theorem passes_without_callback (s : State) :
  (forall result, called (fst (tick result s)) = called s)
  /\ (forall err,
        tick (enum_error err) s
        = (with_emitted (emitted s ++ [ev_error (an_error err)]) s,
           if heard s then Return tt else Throw err))
  /\ (forall err,
        getAdapters not_a_function (enum_error err) s
        = (with_emitted (emitted s ++ [ev_error (an_error err)]) s,
           Throw (if heard s then "TypeError: callback is not a function"
                  else err)))
  /\ (forall adapters,
        Forall classified adapters ->
        snd (getAdapters not_a_function (enum_adapters adapters) s) = Return tt
        /\ called (fst (getAdapters not_a_function (enum_adapters adapters) s))
           = called s).
Proof.
  assert (He : forall err,
             emit (ev_error (an_error err)) s
             = (with_emitted (emitted s ++ [ev_error (an_error err)]) s,
                if heard s then Return tt else Throw err)) by reflexivity.
  split; [|split; [|split]].
  - intros [err|adapters].
    + unfold tick, _updateAdapterList, bind. rewrite He.
      now destruct (heard s).
    + unfold tick.
      destruct (descriptors_split adapters)
        as [Hall | (pre & bad & post & m & -> & Hpre & Hbad)].
      * destruct (update_complete_exact not_a_function adapters s Hall)
          as (sa & rm & sr & E & _).
        rewrite E. cbn. now rewrite List.app_nil_r.
      * destruct (update_abort not_a_function pre bad post m s Hpre Hbad)
          as (s1 & rm1 & E1 & E).
        pose proof (add_loop_frame pre (obj_assign [] (this_adapters s)) s)
          as HF.
        rewrite E1 in HF. cbn [fst] in HF. rewrite E. cbn.
        exact (proj1 (proj2 HF)).
  - intros err. unfold tick, _updateAdapterList, bind. rewrite He.
    now destruct (heard s).
  - intros err. unfold getAdapters, _updateAdapterList, bind. rewrite He.
    now destruct (heard s).
  - intros adapters Hall. unfold getAdapters.
    destruct (update_complete_exact (getAdapters_arrow not_a_function)
                adapters s Hall) as (sa & rm & sr & E & _).
    rewrite E. cbn. now rewrite List.app_nil_r.
Qed.

Lemma passes_without_callback_witness :
  Forall classified [dk "680123456"]
  /\ snd (getAdapters not_a_function (enum_adapters [dk "680123456"]) linux)
     = Return tt.
Proof.
  assert (H : Forall classified [dk "680123456"]).
  { constructor; [now apply dk_classified with "v2"|constructor]. }
  split; [exact H|].
  exact (proj1 (proj2 (proj2 (proj2 (passes_without_callback linux)))
                  [dk "680123456"] H)).
Defined.

(** ** The drivers of the singleton *)

Lemma calls_after_instance cs : forall p f,
  Forall outside cs -> instance p = Some 0 -> factories p = [f] ->
  factories (fst (calls cs p)) = [f].
Proof.
  induction cs as [|c cs IH]; intros p f Hcs Hi Hf; simpl; [exact Hf|].
  inversion Hcs as [|? ? Hc Hcs']; subst.
  destruct c as [b|tok b]; simpl.
  - unfold getInstance. rewrite Hi.
    pose proof (IH p f Hcs' Hi Hf) as H.
    destruct (calls cs p) as [p2 outs]. exact H.
  - rewrite (constructor_outside _ _ _ Hc).
    pose proof (IH p f Hcs' Hi Hf) as H.
    destruct (calls cs p) as [p2 outs]. exact H.
Qed.

(** In a process where the code outside the module calls [getInstance] and
    the constructor as it likes, the one factory has the drivers of the
    first call of [getInstance] (those of the package when that call gives
    none), an empty table and the period of 2000 ms; the drivers given to
    later calls are ignored, and no factory exists before the first call. *)
Theorem singleton_keeps_first_drivers (os_platform : string) (cs : list Call) :
  Forall outside cs ->
  factories (fst (calls cs (start os_platform)))
  = match first_drivers cs with
    | Some bleDrivers =>
        [{| platform := os_platform; this_bleDrivers := bleDrivers;
            this_adapters := []; updateInterval := 2000;
            store := []; addOns := []; emitted := []; called := [];
            error_listeners := 0 |}]
    | None => []
    end.
Proof.
  induction cs as [|c cs IH]; intros Hcs; [reflexivity|].
  inversion Hcs as [|? ? Hc Hcs']; subst.
  destruct c as [b|tok b]; cbn [calls call].
  - set (b' := match b with Some x => x | None => _bleDrivers end).
    assert (E : getInstance b (start os_platform)
                = ({| os := os_platform; instance := Some 0;
                      factories := [new_factory os_platform b'] |}, Return 0))
      by reflexivity.
    rewrite E.
    pose proof (calls_after_instance cs
                  {| os := os_platform; instance := Some 0;
                     factories := [new_factory os_platform b'] |}
                  (new_factory os_platform b') Hcs' eq_refl eq_refl) as H.
    clear IH. cbv beta iota.
    destruct (calls cs {| os := os_platform; instance := Some 0;
                          factories := [new_factory os_platform b'] |})
      as [p2 outs].
    cbn [fst] in H |- *. rewrite H. unfold b'. now destruct b.
  - rewrite (constructor_outside _ _ _ Hc).
    specialize (IH Hcs'). destruct (calls cs (start os_platform)) as [p2 outs].
    exact IH.
Qed.

Lemma singleton_keeps_first_drivers_witness :
  Forall outside
    [call_new undefined _bleDrivers;
     call_getInstance (Some {| v2 := injected 1; v3 := injected 2 |});
     call_getInstance None]
  /\ map this_bleDrivers
       (factories
          (fst (calls
                  [call_new undefined _bleDrivers;
                   call_getInstance
                     (Some {| v2 := injected 1; v3 := injected 2 |});
                   call_getInstance None] (start "linux"))))
     = [{| v2 := injected 1; v3 := injected 2 |}].
Proof.
  assert (H : Forall outside
                [call_new undefined _bleDrivers;
                 call_getInstance (Some {| v2 := injected 1; v3 := injected 2 |});
                 call_getInstance None]).
  { repeat constructor; simpl; discriminate. }
  split; [exact H|].
  exact (f_equal (map this_bleDrivers)
           (singleton_keeps_first_drivers "linux" _ H)).
Defined.

(** ** Characteristics *)

Module CharacteristicFacts.
Import Characteristic.

Lemma counter_after_succ n : counter_after (N.succ n) = increment (counter_after n).
Proof. unfold counter_after. now rewrite N.iter_succ. Qed.

Lemma counter_after_min n : counter_after n = N.min (n + 1) limit.
Proof.
  induction n as [|n IH] using N.peano_ind; [reflexivity|].
  rewrite counter_after_succ, IH. unfold increment.
  destruct (N.ltb_spec (N.min (n + 1) limit) limit) as [H|H]; lia.
Qed.

Lemma new_counter {P V} s u (p : P) (v : V) n :
  fst (new s u p v (counter_after n)) = counter_after (N.succ n).
Proof. now rewrite counter_after_succ. Qed.

Lemma string_of_uint_no_dot d : has_dot (NilEmpty.string_of_uint d) = false.
Proof. induction d; simpl; auto. Qed.

Lemma toString_no_dot n : has_dot (toString n) = false.
Proof. apply string_of_uint_no_dot. Qed.

Lemma toString_inj m n : toString m = toString n -> m = n.
Proof.
  unfold toString. intros H.
  assert (E : N.to_uint m = N.to_uint n).
  { pose proof (NilEmpty.usu (N.to_uint m)) as Hm.
    pose proof (NilEmpty.usu (N.to_uint n)) as Hn.
    rewrite H in Hm. congruence. }
  rewrite <- (DecimalN.Unsigned.of_to m), <- (DecimalN.Unsigned.of_to n).
  now rewrite E.
Qed.

(** A string ends with one dot and a suffix without a dot in one way. *)
Lemma dot_suffix_unique a b x y :
  has_dot x = false -> has_dot y = false ->
  (a ++ String dot x)%string = (b ++ String dot y)%string -> x = y.
Proof.
  intros Hx Hy. revert b.
  assert (Hdot : forall b z, has_dot (b ++ String dot z) = true).
  { induction b as [|c b IH]; intros z; simpl; [reflexivity|].
    rewrite IH. apply orb_true_r. }
  induction a as [|c a IH]; intros [|c' b] E; simpl in E.
  - now injection E.
  - injection E as <- E. rewrite E, Hdot in Hx. discriminate Hx.
  - injection E as -> E. rewrite <- E, Hdot in Hy. discriminate Hy.
  - injection E as _ E. now apply IH with b.
Qed.

(** The claim C10 fails: the construction that finds the counter at 2^53
    leaves it there, and the next characteristic of the same service gets
    the same instance id. The counter is there after 2^53 - 1
    constructions. *)
Lemma instance_id_counterexample :
  counter_after (limit - 1) = limit
  /\ counter_after limit = limit
  /\ instanceId (constructed (limit - 1) "service" "2A00" tt tt)
     = instanceId (constructed limit "service" "2A00" tt tt)
  /\ instanceId (constructed limit "service" "2A00" tt tt)
     = "service.9007199254740992".
Proof.
  assert (H1 : counter_after (limit - 1) = limit)
    by (rewrite counter_after_min; reflexivity).
  assert (H2 : counter_after limit = limit)
    by (rewrite counter_after_min; reflexivity).
  unfold constructed, new, instanceId. cbn [snd _instanceId].
  rewrite H1, H2. repeat split. 
Qed.

(** C10, as the code has it. The instance id of a characteristic is its
    service instance id, a dot and the value of the counter, which is the
    number of the construction; each of the first 2^53 - 1 constructions
    adds one to the counter; and any two of the first 2^53 characteristics
    constructed in a process have different instance ids, whatever their
    service, uuid, properties and value. *)
Theorem instance_ids_differ {Properties Value : Type}
    (m n : N) (s1 u1 s2 u2 : string) (p1 p2 : Properties) (v1 v2 : Value) :
  (m < limit)%N -> (n < limit)%N -> m <> n ->
  instanceId (constructed m s1 u1 p1 v1)
  = (s1 ++ "." ++ toString (m + 1))%string
  /\ ((m + 1 < limit)%N ->
      fst (new s1 u1 p1 v1 (counter_after m)) = (counter_after m + 1)%N)
  /\ instanceId (constructed m s1 u1 p1 v1)
     <> instanceId (constructed n s2 u2 p2 v2).
Proof.
  intros Hm Hn Hne.
  assert (Em : counter_after m = (m + 1)%N) by (rewrite counter_after_min; lia).
  assert (En : counter_after n = (n + 1)%N) by (rewrite counter_after_min; lia).
  unfold constructed, new, instanceId. cbn [fst snd _instanceId].
  rewrite Em, En. split; [reflexivity|]. split.
  - intros H. unfold increment.
    destruct (N.ltb_spec (m + 1) limit) as [_|H']; [reflexivity|lia].
  - intros E.
    apply dot_suffix_unique in E; try apply toString_no_dot.
    apply toString_inj in E. lia.
Qed.

Lemma instance_ids_differ_witness :
  (0 < limit)%N /\ (1 < limit)%N /\ 0%N <> 1%N
  /\ instanceId (constructed 0 "service" "2A00" tt tt)
     <> instanceId (constructed 1 "service" "2A00" tt tt).
Proof.
  assert (H0 : (0 < limit)%N) by reflexivity.
  assert (H1 : (1 < limit)%N) by reflexivity.
  assert (H2 : 0%N <> 1%N) by discriminate.
  split; [exact H0|]. split; [exact H1|]. split; [exact H2|].
  exact (proj2 (proj2 (instance_ids_differ 0 1 "service" "2A00" "service" "2A00"
                         tt tt tt tt H0 H1 H2))).
Defined.

(** *** Further properties of a characteristic *)

Lemma dot_split_unique a b x y :
  has_dot x = false -> has_dot y = false ->
  (a ++ String dot x)%string = (b ++ String dot y)%string -> a = b /\ x = y.
Proof.
  intros Hx Hy. revert b.
  assert (Hdot : forall b z, has_dot (b ++ String dot z) = true).
  { induction b as [|c b IH]; intros z; simpl; [reflexivity|].
    rewrite IH. apply orb_true_r. }
  induction a as [|c a IH]; intros [|c' b] E; simpl in E.
  - injection E as ->. now split.
  - injection E as <- E. rewrite E, Hdot in Hx. discriminate Hx.
  - injection E as -> E. rewrite <- E, Hdot in Hy. discriminate Hy.
  - injection E as -> E. destruct (IH b E) as [-> ->]. now split.
Qed.

(** The instance id of a characteristic tells its service and the value of
    the counter at its construction: two characteristics have the same
    instance id exactly when they have the same service instance id, dots in
    it or not, and were constructed at the same value of the counter. *)
Theorem instance_id_reads_back {Properties Value : Type}
    (s1 u1 s2 u2 : string) (p1 p2 : Properties) (v1 v2 : Value) (i j : N) :
  instanceId (snd (new s1 u1 p1 v1 i)) = instanceId (snd (new s2 u2 p2 v2 j))
  <-> s1 = s2 /\ i = j.
Proof.
  unfold new, instanceId. cbn [snd _instanceId]. split.
  - intros E.
    change (s1 ++ "." ++ toString i)%string
      with (s1 ++ String dot (toString i))%string in E.
    change (s2 ++ "." ++ toString j)%string
      with (s2 ++ String dot (toString j))%string in E.
    apply dot_split_unique in E; try apply toString_no_dot.
    destruct E as [-> E]. apply toString_inj in E. now split.
  - intros [-> ->]. reflexivity.
Qed.

(** The name of a characteristic is its uuid as long as no name is set, and
    again when the name is set to [null] or to the empty string; it is the
    name set otherwise. Setting the name changes neither the instance id nor
    the service instance id. *)
Theorem name_falls_back_to_uuid {Properties Value : Type}
    (s u : string) (p : Properties) (v : Value) (i : N)
    (c : @Characteristic Properties Value) (n : option string) :
  name (snd (new s u p v i)) = u
  /\ serviceInstanceId (snd (new s u p v i)) = s
  /\ name (set_name n c)
     = match n with
       | Some "" | None => uuid c
       | Some n' => n'
       end
  /\ instanceId (set_name n c) = instanceId c
  /\ serviceInstanceId (set_name n c) = serviceInstanceId c.
Proof.
  split; [reflexivity|]. split; [reflexivity|]. split; [|now split].
  unfold name, set_name. cbn [_name uuid].
  destruct n as [[|ch n']|]; reflexivity.
Qed.

End CharacteristicFacts.
